(** * unleash-proxy-client-js: the toggle synchronization and evaluation engine

    A shallow embedding of [src/index.ts] (class [UnleashClient]) and the
    properties of its synchronization protocol, its initialization sequence,
    its context store and its evaluation operations.

    JavaScript objects are kept as association lists in insertion order,
    asynchronous functions as computations in a state-and-exception monad
    (what a rejected promise or a [throw] leaves in the fields stays there),
    and the external ports (storage, transport, event emitter, metrics,
    console) as explicit parts of the state or as arguments. *)

From stdpp Require Import base strings list gmap pretty.

Open Scope string_scope.
Open Scope list_scope.
Open Scope Z_scope.

(** ** JavaScript values *)

(** The values the client handles under the type [any]: the primitives a
    context field can hold and plain objects (the [properties] bag). Numbers
    are the integers that print in plain decimal form; the only number the
    client makes itself is the generated session id. *)
#[warnings="-register-all"]
Inductive JSValue : Type :=
  | JUndefined
  | JNull
  | JString (s : string)
  | JNumber (n : Z)
  | JObject (o : list (string * JSValue)).

(** A plain object: own enumerable string-keyed properties in creation
    order, every key at most once. *)
Abbreviation JSObject := (list (string * JSValue)).

(** ToBoolean. *)
Definition truthy (v : JSValue) : bool :=
  match v with
  | JUndefined | JNull => false
  | JString s => negb (bool_decide (s = EmptyString))
  | JNumber n => negb (bool_decide (n = 0))
  | JObject _ => true
  end.

(** ToString, as [URLSearchParams.append] applies it to its arguments. *)
Definition ToString (v : JSValue) : string :=
  match v with
  | JUndefined => "undefined"
  | JNull => "null"
  | JString s => s
  | JNumber n => pretty n
  | JObject _ => "[object Object]"
  end.

(** The double quote, for the messages that have one. *)
Definition dquote : string :=
  String (Ascii.Ascii false true false false false true false false) EmptyString.

(** [o[k]]: the value of an own property, [None] when the object has none. *)
Fixpoint obj_get {A : Type} (k : string) (o : list (string * A)) : option A :=
  match o with
  | [] => None
  | (k', v) :: o' => if decide (k' = k) then Some v else obj_get k o'
  end.

(** Property read [o.k] as JavaScript sees it: a missing property reads as
    [undefined]. *)
Definition obj_read (k : string) (o : JSObject) : JSValue :=
  default JUndefined (obj_get k o).

(** [o[k] = v]: an existing property keeps its place and takes the new
    value, a new one is created last. *)
Fixpoint obj_set {A : Type} (k : string) (v : A) (o : list (string * A))
  : list (string * A) :=
  match o with
  | [] => [(k, v)]
  | (k', v') :: o' =>
      if decide (k' = k) then (k, v) :: o' else (k', v') :: obj_set k v o'
  end.

(** Decimal digits of a key, most significant first. *)
Definition digit_of (c : Ascii.ascii) : option N :=
  let n := Ascii.N_of_ascii c in
  if bool_decide (48 <= n <= 57)%N then Some (n - 48)%N else None.

Fixpoint parse_decimal (acc : N) (s : string) : option N :=
  match s with
  | EmptyString => Some acc
  | String c s' =>
      match digit_of c with
      | Some d => parse_decimal (10 * acc + d)%N s'
      | None => None
      end
  end.

(** A key is an array index when it is the canonical decimal form of an
    integer below 2^32 - 1. *)
Definition array_index (k : string) : option N :=
  match k with
  | EmptyString => None
  | _ =>
      match parse_decimal 0%N k with
      | Some n =>
          if bool_decide (n < 4294967295)%N && bool_decide (pretty n = k)
          then Some n else None
      | None => None
      end
  end.

(** Insertion of an indexed entry into a list ordered by index. *)
Fixpoint insert_by_index {A : Type} (e : N * A) (l : list (N * A))
  : list (N * A) :=
  match l with
  | [] => [e]
  | e' :: l' =>
      if bool_decide (e.1 <= e'.1)%N then e :: e' :: l'
      else e' :: insert_by_index e l'
  end.

Definition sort_by_index {A : Type} (l : list (N * A)) : list (N * A) :=
  foldr insert_by_index [] l.

(** OrdinaryOwnPropertyKeys: array-index keys first, in ascending numeric
    order, then the other keys in creation order. *)
Definition own_entries {A : Type} (o : list (string * A)) : list (string * A) :=
  (sort_by_index
     (omap (fun e : string * A => (fun n => (n, e)) <$> array_index e.1) o)).*2
  ++ filter (fun e : string * A => array_index e.1 = None) o.

(** The characters of a string as its indexed properties. *)
Fixpoint string_entries (i : N) (s : string) : JSObject :=
  match s with
  | EmptyString => []
  | String c s' => (pretty i, JString (String c EmptyString)) :: string_entries (i + 1)%N s'
  end.

(** [Object.entries(v)] and the properties copied by a spread [{...v}], for
    the values on which neither throws: an object gives its own entries, a
    string its characters, the other primitives nothing.
    ([Object.entries] throws on [undefined] and [null]; the client only
    applies it behind a truthiness test.) *)
Definition Object_entries (v : JSValue) : JSObject :=
  match v with
  | JObject o => own_entries o
  | JString s => string_entries 0%N s
  | _ => []
  end.

(** Object spread into a target: [{...target, ...source}] copies the
    source's own entries, in their order, with [o[k] = v]. *)
Definition spread (source : JSValue) (target : JSObject) : JSObject :=
  fold_left (fun t e => obj_set e.1 e.2 t) (Object_entries source) target.

(** [notNullOrUndefined] of [./util].

    Modelled from the spec: the source of [./util] is not part of the
    sources at hand; the spec calls the entries it keeps the defined
    (non-null, non-undefined) ones. It tests the value of a
    [[key, value]] entry. *)
Definition notNullOrUndefined (e : string * JSValue) : bool :=
  match e.2 with
  | JUndefined | JNull => false
  | _ => true
  end.

(** ** Data model *)

Module IVariant.
Record t : Type := mk {
  name : string;
  enabled : bool;
  payload : option (string * string)   (* [{type, value}] *)
}.
End IVariant.

Module IToggle.
Record t : Type := mk {
  name : string;
  enabled : bool;
  variant : IVariant.t;
  impressionData : bool
}.
End IToggle.

Abbreviation IVariant := IVariant.t.
Abbreviation IToggle := IToggle.t.

Definition DEFINED_FIELDS : list string := ["userId"; "sessionId"; "remoteAddress"].

Definition defaultVariant : IVariant :=
  IVariant.mk "disabled" false None.

Definition storeKey : string := "repo".

(** What a [throw] or a rejected promise carries. *)
Inductive JSError : Type :=
  | Error (message : string)        (* [new Error(message)] *)
  | TypeError (message : string)    (* raised by the language itself *)
  | Failure (reason : string).      (* a rejection coming from a port *)

(** The payload of an [error] event: the object the client builds for a
    response that is not ok, or the raw failure it caught. *)
Inductive ErrorPayload : Type :=
  | HttpError (code : Z)            (* [{type: 'HttpError', code}] *)
  | Raw (e : JSError).

Inductive EvaluationKind : Type := IS_ENABLED | GET_VARIANT.

(** The impression event of [EventsHandler.createImpressionEvent].

    Modelled from the spec: the source of [./events-handler] is not part of
    the sources at hand; the spec gives the payload as
    [{context, enabled, toggleName, evaluationKind, variantName?}]. *)
Record ImpressionEvent : Type := {
  imp_context : JSObject;
  imp_enabled : bool;
  imp_toggleName : string;
  imp_evaluationKind : EvaluationKind;
  imp_variantName : option string
}.

Definition createImpressionEvent (context : JSObject) (enabled : bool)
    (toggleName : string) (kind : EvaluationKind) (variantName : option string)
  : ImpressionEvent :=
  {| imp_context := context; imp_enabled := enabled;
     imp_toggleName := toggleName; imp_evaluationKind := kind;
     imp_variantName := variantName |}.

(** [EVENTS]: what [this.emit] publishes. *)
Inductive Event : Type :=
  | INIT
  | ERROR (payload : ErrorPayload)
  | READY
  | UPDATE
  | IMPRESSION (event : ImpressionEvent).

Definition is_READY (ev : Event) : bool :=
  match ev with READY => true | _ => false end.
Definition is_UPDATE (ev : Event) : bool :=
  match ev with UPDATE => true | _ => false end.
Definition is_ERROR (ev : Event) : bool :=
  match ev with ERROR _ => true | _ => false end.
Definition is_IMPRESSION (ev : Event) : bool :=
  match ev with IMPRESSION _ => true | _ => false end.

(** How often an event of a kind occurs in a log. *)
Definition occurrences (kind : Event -> bool) (log : list Event) : nat :=
  length (filter (fun ev => kind ev = true) log).

(** Console output. *)
Inductive Diagnostic : Type :=
  | console_warn (message : string)
  | console_error (message : string) (detail : option JSError).

(** ** The ports *)

(** What a storage cell holds: the toggle list kept under [storeKey], or a
    plain value (the session id). *)
Inductive Stored : Type :=
  | StoredToggles (toggles : list IToggle)
  | StoredValue (v : JSValue).

(** The storage provider.

    Modelled from the spec: the sources of the providers and of the
    [IStorageProvider] interface are not part of the sources at hand; the
    spec gives the port as [get(key) -> Promise<value|undefined>] and
    [save(key, value) -> Promise<void>], durability best-effort. The cells
    are a finite map; [faults] schedules the outcome of the coming calls,
    one entry a call, in call order: [Some e] makes the call reject with [e]
    (a rejected [save] stores nothing), [None] or an exhausted schedule lets
    it succeed. [journal] records the calls the port receives. *)
Inductive StorageCall : Type :=
  | get_call (key : string)
  | save_call (key : string) (data : Stored).

Record Storage : Type := {
  cells : gmap string Stored;
  faults : list (option JSError);
  journal : list StorageCall   (* the calls received, oldest first *)
}.

(** A parsed URL: what precedes the query, and the query as the list that
    [url.searchParams] exposes. Parsing and serialization of URL strings
    are not modelled. *)
Record URL : Type := {
  href : string;
  searchParams : list (string * string)
}.

(** [url.searchParams.append(name, value)]. *)
Definition append (name value : string) (u : URL) : URL :=
  {| href := href u; searchParams := searchParams u ++ [(name, value)] |}.

(** The metrics collector.

    Modelled from the spec: the source of [./metrics] is not part of the
    sources at hand; the spec gives its interface as [start()], [stop()]
    and [count(toggleName, enabled)], the latter recording one evaluation.
    The record keeps what the constructor hands over to it (the [onError]
    callback apart, which is the call [metrics_onError] of a run), whether
    it is started, and the counts. *)
Record Metrics : Type := {
  metrics_appName : string;
  metrics_metricsInterval : Z;
  metrics_disableMetrics : bool;
  metrics_url : URL;
  metrics_clientKey : string;
  metrics_fetch : bool;
  metrics_headerName : string;
  metrics_started : bool;
  metrics_counts : list (string * bool)
}.

Definition metrics_count (name : string) (enabled : bool) (m : Metrics) : Metrics :=
  {| metrics_appName := metrics_appName m;
     metrics_metricsInterval := metrics_metricsInterval m;
     metrics_disableMetrics := metrics_disableMetrics m;
     metrics_url := metrics_url m;
     metrics_clientKey := metrics_clientKey m;
     metrics_fetch := metrics_fetch m;
     metrics_headerName := metrics_headerName m;
     metrics_started := metrics_started m;
     metrics_counts := metrics_counts m ++ [(name, enabled)] |}.

Definition metrics_set_started (b : bool) (m : Metrics) : Metrics :=
  {| metrics_appName := metrics_appName m;
     metrics_metricsInterval := metrics_metricsInterval m;
     metrics_disableMetrics := metrics_disableMetrics m;
     metrics_url := metrics_url m;
     metrics_clientKey := metrics_clientKey m;
     metrics_fetch := metrics_fetch m;
     metrics_headerName := metrics_headerName m;
     metrics_started := b;
     metrics_counts := metrics_counts m |}.

(** The request handed to [fetch]: the URL and the [headers] option (the
    [cache] option is the constant ['no-cache']). *)
Record Request : Type := {
  req_url : URL;
  req_headers : JSObject
}.

(** [undefined] or [null]. *)
Inductive Nullish : Type := nullish_undefined | nullish_null.

Definition nullish_value (n : Nullish) : JSValue :=
  match n with nullish_undefined => JUndefined | nullish_null => JNull end.

(** What [this.toggles] holds. The field is declared [IToggle[]], but what
    it is assigned from a response body is whatever [data.toggles] is: a
    toggle list, or nothing ([undefined] where the body has no such member,
    [null] where it holds that). *)
Inductive Snapshot : Type :=
  | Toggles (l : list IToggle)
  | NoToggles (n : Nullish).

(** What [await response.json()] followed by [data.toggles] comes to. A
    [toggles] member of yet another kind (a number, a string, a list of
    something else) is outside the bodies modelled. *)
Inductive Body : Type :=
  | BodyRejects (e : JSError)             (* [response.json()] rejects *)
  | BodyNullish                           (* the body parses to [null] *)
  | BodyToggles (toggles : list IToggle)  (* [{toggles: [...]}] *)
  | BodyNoToggles (n : Nullish).          (* [{}], [5], [{toggles: null}] *)

(** The response object, as far as the client looks at it. *)
Record Response : Type := {
  ok : bool;
  status : Z;
  ETag : option string;      (* [response.headers.get('ETag')] *)
  body : Body
}.

(** What [await this.fetch(...)] comes to. *)
Inductive FetchOutcome : Type :=
  | Rejected (e : JSError)
  | Responded (response : Response).

(** ** The client *)

(** The fields of [UnleashClient], and the records of what the instance has
    sent to its emitter, to the console and to the transport. [ready] (the
    promise of the initialization) and [eventsHandler] (stateless) have no
    field of their own. *)
Record UnleashClient : Type := {
  toggles : Snapshot;
  context : JSObject;
  timerRef : option positive   (* the handle [setInterval] gave, if a timer runs *);
  storage : Storage;
  refreshInterval : Z;
  url : URL;
  clientKey : string;
  etag : string;
  metrics : Metrics;
  fetch : bool   (* whether a request function was resolved *);
  bootstrap : option (list IToggle);
  bootstrapOverride : bool;
  headerName : string;
  customHeaders : JSObject;
  readyEventEmitted : bool;
  emitted : list Event   (* what [this.emit] has published, oldest first *);
  console : list Diagnostic   (* what went to the console, oldest first *);
  requests : list Request   (* the requests handed to [this.fetch], oldest first *)
}.

(** Field assignment [this.f = v]. *)
Definition set_toggles (v : Snapshot) (c : UnleashClient) : UnleashClient :=
  {| toggles := v; context := context c; timerRef := timerRef c;
     storage := storage c; refreshInterval := refreshInterval c;
     url := url c; clientKey := clientKey c; etag := etag c;
     metrics := metrics c; fetch := fetch c; bootstrap := bootstrap c;
     bootstrapOverride := bootstrapOverride c; headerName := headerName c;
     customHeaders := customHeaders c;
     readyEventEmitted := readyEventEmitted c; emitted := emitted c;
     console := console c; requests := requests c |}.

Definition set_context (v : JSObject) (c : UnleashClient) : UnleashClient :=
  {| toggles := toggles c; context := v; timerRef := timerRef c;
     storage := storage c; refreshInterval := refreshInterval c;
     url := url c; clientKey := clientKey c; etag := etag c;
     metrics := metrics c; fetch := fetch c; bootstrap := bootstrap c;
     bootstrapOverride := bootstrapOverride c; headerName := headerName c;
     customHeaders := customHeaders c;
     readyEventEmitted := readyEventEmitted c; emitted := emitted c;
     console := console c; requests := requests c |}.

Definition set_timerRef (v : option positive) (c : UnleashClient) : UnleashClient :=
  {| toggles := toggles c; context := context c; timerRef := v;
     storage := storage c; refreshInterval := refreshInterval c;
     url := url c; clientKey := clientKey c; etag := etag c;
     metrics := metrics c; fetch := fetch c; bootstrap := bootstrap c;
     bootstrapOverride := bootstrapOverride c; headerName := headerName c;
     customHeaders := customHeaders c;
     readyEventEmitted := readyEventEmitted c; emitted := emitted c;
     console := console c; requests := requests c |}.

Definition set_storage (v : Storage) (c : UnleashClient) : UnleashClient :=
  {| toggles := toggles c; context := context c; timerRef := timerRef c;
     storage := v; refreshInterval := refreshInterval c; url := url c;
     clientKey := clientKey c; etag := etag c; metrics := metrics c;
     fetch := fetch c; bootstrap := bootstrap c;
     bootstrapOverride := bootstrapOverride c; headerName := headerName c;
     customHeaders := customHeaders c;
     readyEventEmitted := readyEventEmitted c; emitted := emitted c;
     console := console c; requests := requests c |}.

Definition set_etag (v : string) (c : UnleashClient) : UnleashClient :=
  {| toggles := toggles c; context := context c; timerRef := timerRef c;
     storage := storage c; refreshInterval := refreshInterval c;
     url := url c; clientKey := clientKey c; etag := v;
     metrics := metrics c; fetch := fetch c; bootstrap := bootstrap c;
     bootstrapOverride := bootstrapOverride c; headerName := headerName c;
     customHeaders := customHeaders c;
     readyEventEmitted := readyEventEmitted c; emitted := emitted c;
     console := console c; requests := requests c |}.

Definition set_metrics (v : Metrics) (c : UnleashClient) : UnleashClient :=
  {| toggles := toggles c; context := context c; timerRef := timerRef c;
     storage := storage c; refreshInterval := refreshInterval c;
     url := url c; clientKey := clientKey c; etag := etag c; metrics := v;
     fetch := fetch c; bootstrap := bootstrap c;
     bootstrapOverride := bootstrapOverride c; headerName := headerName c;
     customHeaders := customHeaders c;
     readyEventEmitted := readyEventEmitted c; emitted := emitted c;
     console := console c; requests := requests c |}.

Definition set_readyEventEmitted (v : bool) (c : UnleashClient) : UnleashClient :=
  {| toggles := toggles c; context := context c; timerRef := timerRef c;
     storage := storage c; refreshInterval := refreshInterval c;
     url := url c; clientKey := clientKey c; etag := etag c;
     metrics := metrics c; fetch := fetch c; bootstrap := bootstrap c;
     bootstrapOverride := bootstrapOverride c; headerName := headerName c;
     customHeaders := customHeaders c; readyEventEmitted := v;
     emitted := emitted c; console := console c; requests := requests c |}.

Definition set_emitted (v : list Event) (c : UnleashClient) : UnleashClient :=
  {| toggles := toggles c; context := context c; timerRef := timerRef c;
     storage := storage c; refreshInterval := refreshInterval c;
     url := url c; clientKey := clientKey c; etag := etag c;
     metrics := metrics c; fetch := fetch c; bootstrap := bootstrap c;
     bootstrapOverride := bootstrapOverride c; headerName := headerName c;
     customHeaders := customHeaders c;
     readyEventEmitted := readyEventEmitted c; emitted := v;
     console := console c; requests := requests c |}.

Definition set_console (v : list Diagnostic) (c : UnleashClient) : UnleashClient :=
  {| toggles := toggles c; context := context c; timerRef := timerRef c;
     storage := storage c; refreshInterval := refreshInterval c;
     url := url c; clientKey := clientKey c; etag := etag c;
     metrics := metrics c; fetch := fetch c; bootstrap := bootstrap c;
     bootstrapOverride := bootstrapOverride c; headerName := headerName c;
     customHeaders := customHeaders c;
     readyEventEmitted := readyEventEmitted c; emitted := emitted c;
     console := v; requests := requests c |}.

Definition set_requests (v : list Request) (c : UnleashClient) : UnleashClient :=
  {| toggles := toggles c; context := context c; timerRef := timerRef c;
     storage := storage c; refreshInterval := refreshInterval c;
     url := url c; clientKey := clientKey c; etag := etag c;
     metrics := metrics c; fetch := fetch c; bootstrap := bootstrap c;
     bootstrapOverride := bootstrapOverride c; headerName := headerName c;
     customHeaders := customHeaders c;
     readyEventEmitted := readyEventEmitted c; emitted := emitted c;
     console := console c; requests := v |}.

(** ** Computations *)

(** How a function body ends: normally with a value, or by a [throw] (for an
    [async] function: a rejected promise). *)
Inductive Completion (A : Type) : Type :=
  | Normal (a : A)
  | Throw (e : JSError).
Arguments Normal {A} a.
Arguments Throw {A} e.

(** A method body: it runs on the instance, changes its fields, and
    completes. Assignments made before a [throw] stay made. *)
Definition Action (A : Type) : Type :=
  UnleashClient -> Completion A * UnleashClient.

#[export] Instance Action_ret : MRet Action :=
  fun A a c => (Normal a, c).

#[export] Instance Action_bind : MBind Action :=
  fun A B f m c =>
    match m c with
    | (Normal a, c') => f a c'
    | (Throw e, c') => (Throw e, c')
    end.

Definition throw {A : Type} (e : JSError) : Action A :=
  fun c => (Throw e, c).

(** [try { body } catch (e) { handler }]. *)
Definition try_catch {A : Type} (body : Action A) (handler : JSError -> Action A)
  : Action A :=
  fun c =>
    match body c with
    | (Normal a, c') => (Normal a, c')
    | (Throw e, c') => handler e c'
    end.

(** Reading [this], and changing it. *)
Definition this : Action UnleashClient := fun c => (Normal c, c).
Definition assign (f : UnleashClient -> UnleashClient) : Action unit :=
  fun c => (Normal tt, f c).

(** [this.emit(event)]: the emitter calls the subscribers; the model keeps
    the log of what was published. *)
Definition emit (ev : Event) : Action unit :=
  assign (fun c => set_emitted (emitted c ++ [ev]) c).

Definition log (d : Diagnostic) : Action unit :=
  assign (fun c => set_console (console c ++ [d]) c).

(** The port receives a call: the call is recorded, and the schedule gives
    its outcome. *)
Definition receive (call : StorageCall) (s : Storage) : option JSError * Storage :=
  (default None (head (faults s)),
   {| cells := cells s; faults := tail (faults s);
      journal := journal s ++ [call] |}).

(** [await this.storage.get(key)]. *)
Definition storage_get (key : string) : Action (option Stored) :=
  fun c =>
    let '(fault, s) := receive (get_call key) (storage c) in
    match fault with
    | Some e => (Throw e, set_storage s c)
    | None => (Normal (cells s !! key), set_storage s c)
    end.

(** [await this.storage.save(key, data)]. *)
Definition storage_save (key : string) (data : Stored) : Action unit :=
  fun c =>
    let '(fault, s) := receive (save_call key data) (storage c) in
    match fault with
    | Some e => (Throw e, set_storage s c)
    | None =>
        (Normal tt,
         set_storage {| cells := <[key := data]> (cells s); faults := faults s;
                        journal := journal s |} c)
    end.

(** The source types what [get] returns as [any] and uses it unchecked; the
    model reads a cell at the type the client keeps there.
    [(await this.storage.get(storeKey)) || []]: the stored toggle list, the
    empty list when there is none (also when the cell holds the [undefined]
    or [null] that was saved for a snapshot without toggle list). *)
Definition stored_toggles (cell : option Stored) : list IToggle :=
  match cell with
  | Some (StoredToggles l) => l
  | _ => []
  end.

(** [await this.storage.get('sessionId')]: the stored value, [undefined]
    when there is none. *)
Definition stored_value (cell : option Stored) : JSValue :=
  match cell with
  | Some (StoredValue v) => v
  | _ => JUndefined
  end.

(** ** Methods of [UnleashClient] *)

(** The [TypeError] of a property read on [undefined] or [null]. *)
Definition cannot_read (n : Nullish) (property : string) : JSError :=
  TypeError
    ("Cannot read properties of "
       +:+ ToString (nullish_value n)
       +:+ " (reading '" +:+ property +:+ "')").

(** [[...this.toggles]]: a copy of the list; the spread throws where there
    is nothing to iterate. *)
Definition getAllToggles (c : UnleashClient) : Completion (list IToggle) :=
  match toggles c with
  | Toggles l => Normal l
  | NoToggles _ => Throw (TypeError "this.toggles is not iterable")
  end.

(** [this.toggles.find((t) => t.name === toggleName)]. *)
Definition find_toggle (toggleName : string) (l : list IToggle) : option IToggle :=
  List.find (fun t => bool_decide (IToggle.name t = toggleName)) l.

Definition isEnabled (toggleName : string) : Action bool :=
  c ← this;
  match toggles c with
  | NoToggles n => throw (cannot_read n "find")
  | Toggles l =>
      let toggle := find_toggle toggleName l in
      let enabled :=
        match toggle with Some t => IToggle.enabled t | None => false end in
      assign (fun c => set_metrics (metrics_count toggleName enabled (metrics c)) c);;
      (if match toggle with Some t => IToggle.impressionData t | None => false end
       then emit (IMPRESSION
                    (createImpressionEvent (context c) enabled toggleName
                       IS_ENABLED None))
       else mret tt);;
      mret enabled
  end.

Definition getVariant (toggleName : string) : Action IVariant :=
  c ← this;
  match toggles c with
  | NoToggles n => throw (cannot_read n "find")
  | Toggles l =>
      match find_toggle toggleName l with
      | Some toggle =>
          assign (fun c => set_metrics (metrics_count toggleName true (metrics c)) c);;
          (if IToggle.impressionData toggle
           then emit (IMPRESSION
                        (createImpressionEvent (context c) (IToggle.enabled toggle)
                           toggleName GET_VARIANT
                           (Some (IVariant.name (IToggle.variant toggle)))))
           else mret tt);;
          mret (IToggle.variant toggle)
      | None =>
          assign (fun c => set_metrics (metrics_count toggleName false (metrics c)) c);;
          mret defaultVariant
      end
  end.

Definition getContext (c : UnleashClient) : JSObject :=
  spread (JObject (context c)) [].

(** [getHeaders]: the object literal, then the custom headers over it. *)
Definition getHeaders (c : UnleashClient) : JSObject :=
  let headers :=
    obj_set "If-None-Match" (JString (etag c))
      (obj_set "Content-Type" (JString "application/json")
         (obj_set "Accept" (JString "application/json")
            (obj_set (headerName c) (JString (clientKey c)) []))) in
  fold_left (fun headers e => obj_set e.1 e.2 headers)
    (filter (fun e => notNullOrUndefined e = true)
       (Object_entries (JObject (customHeaders c))))
    headers.

(** What [storage.save] is handed for a snapshot. *)
Definition stored_snapshot (s : Snapshot) : Stored :=
  match s with
  | Toggles l => StoredToggles l
  | NoToggles n => StoredValue (nullish_value n)
  end.

Definition storeToggles (toggles : Snapshot) : Action unit :=
  assign (set_toggles toggles);;
  emit UPDATE;;
  storage_save storeKey (stored_snapshot toggles).

(** One round of the [forEach] over the context entries: the [properties]
    object is flattened, any other field is appended under its own name. *)
Definition append_context_entry (urlWithQuery : URL) (e : string * JSValue) : URL :=
  let '(contextKey, contextValue) := e in
  if bool_decide (contextKey = "properties") && truthy contextValue then
    fold_left
      (fun u p => append ("properties[" +:+ p.1 +:+ "]") (ToString p.2) u)
      (filter (fun p => notNullOrUndefined p = true) (Object_entries contextValue))
      urlWithQuery
  else append contextKey (ToString contextValue) urlWithQuery.

(** The URL of the request: a copy of [this.url] with the context added to
    its search parameters. *)
Definition urlWithQuery (c : UnleashClient) : URL :=
  fold_left append_context_entry
    (filter (fun e => notNullOrUndefined e = true)
       (Object_entries (JObject (context c))))
    (url c).

(** [await this.fetch(url, options)]: the request goes out, the outcome is
    what the transport makes of it. *)
Definition await_fetch (outcome : FetchOutcome) : Action Response :=
  c ← this;
  assign (set_requests
            (requests c ++ [{| req_url := urlWithQuery c; req_headers := getHeaders c |}]));;
  match outcome with
  | Rejected e => throw e
  | Responded response => mret response
  end.

(** [(await response.json()).toggles]. *)
Definition json_toggles (response : Response) : Action Snapshot :=
  match body response with
  | BodyRejects e => throw e
  | BodyNullish =>
      throw (TypeError "Cannot read properties of null (reading 'toggles')")
  | BodyToggles l => mret (Toggles l)
  | BodyNoToggles n => mret (NoToggles n)
  end.

Definition fetchToggles (outcome : FetchOutcome) : Action unit :=
  c ← this;
  if fetch c then
    try_catch
      (response ← await_fetch outcome;
       if ok response && negb (bool_decide (status response = 304)) then
         assign (set_etag (default EmptyString (ETag response)));;
         data_toggles ← json_toggles response;
         storeToggles data_toggles;;
         c ← this;
         if negb (bool_decide (is_Some (bootstrap c))) && negb (readyEventEmitted c)
         then emit READY;; assign (set_readyEventEmitted true)
         else mret tt
       else if negb (ok response) && negb (bool_decide (status response = 304)) then
         log (console_error
                "Unleash: Fetching feature toggles did not have an ok response" None);;
         emit (ERROR (HttpError (status response)))
       else mret tt)
      (fun e =>
         log (console_error "Unleash: unable to fetch feature toggles" (Some e));;
         emit (ERROR (Raw e)))
  else mret tt.

Definition updateContext (context' : JSObject) (outcome : FetchOutcome)
  : Action unit :=
  (if truthy (obj_read "appName" context') || truthy (obj_read "environment" context')
   then log (console_warn
     "appName and environment are static. They can't be updated with updateContext.")
   else mret tt);;
  c ← this;
  let staticContext :=
    [("environment", obj_read "environment" (context c));
     ("appName", obj_read "appName" (context c))] in
  assign (set_context (spread (JObject context') staticContext));;
  c ← this;
  if bool_decide (is_Some (timerRef c)) then fetchToggles outcome else mret tt.

(** [setContextField]: the synchronization it starts is not awaited; it
    cannot reject, and the model lets it run to its end at once. *)
Definition setContextField (field value : string) (outcome : FetchOutcome)
  : Action unit :=
  c ← this;
  (if bool_decide (field ∈ DEFINED_FIELDS) then
     assign (set_context
               (obj_set field (JString value) (spread (JObject (context c)) [])))
   else
     let properties :=
       obj_set field (JString value)
         (spread (obj_read "properties" (context c)) []) in
     assign (set_context
               (obj_set "properties" (JObject properties)
                  (spread (JObject (context c)) []))));;
  c ← this;
  if bool_decide (is_Some (timerRef c)) then fetchToggles outcome else mret tt.

(** [resolveSessionId]; [random] is what
    [Math.floor(Math.random() * 1_000_000_000)] gives if it is evaluated. *)
Definition resolveSessionId (random : Z) : Action JSValue :=
  c ← this;
  if truthy (obj_read "sessionId" (context c)) then
    mret (obj_read "sessionId" (context c))
  else
    cell ← storage_get "sessionId";
    let sessionId := stored_value cell in
    if negb (truthy sessionId) then
      let sessionId := JNumber random in
      storage_save "sessionId" (StoredValue sessionId);;
      mret sessionId
    else mret sessionId.

(** [init]; [this.toggles.length] is read from the list that was just
    assigned to [this.toggles], here [cached]. *)
Definition init (random : Z) : Action unit :=
  sessionId ← resolveSessionId random;
  c ← this;
  assign (set_context (spread (JObject (context c)) [("sessionId", sessionId)]));;
  cell ← storage_get storeKey;
  let cached := stored_toggles cell in
  assign (set_toggles (Toggles cached));;
  c ← this;
  (match bootstrap c with
   | Some b =>
       if bootstrapOverride c || bool_decide (length cached = 0%nat) then
         storage_save storeKey (StoredToggles b);;
         assign (set_toggles (Toggles b));;
         emit READY
       else mret tt
   | None => mret tt
   end);;
  emit INIT.

(** [start]; [handle] is what [setInterval] returns if it is called.
    [await this.ready] has nothing to wait for: the initialization has run
    (see [ready]). *)
Definition start (outcome : FetchOutcome) (handle : positive) : Action unit :=
  c ← this;
  if bool_decide (is_Some (timerRef c)) then
    log (console_error
      "Unleash SDK has already started, if you want to restart the SDK you should call client.stop() before starting again."
      None)
  else
    assign (fun c => set_metrics (metrics_set_started true (metrics c)) c);;
    let interval := refreshInterval c in
    fetchToggles outcome;;
    if bool_decide (interval > 0) then assign (set_timerRef (Some handle))
    else mret tt.

Definition stop : Action unit :=
  c ← this;
  (if bool_decide (is_Some (timerRef c)) then assign (set_timerRef None)
   else mret tt);;
  assign (fun c => set_metrics (metrics_set_started false (metrics c)) c).

(** ** Construction *)

(** The [url] of a configuration: a [URL] object, or a string together
    with what [new URL] makes of it ([None] where it throws, the string
    being no valid URL). *)
Inductive UrlInput : Type :=
  | url_object (u : URL)
  | url_string (s : string) (parsed : option URL).

(** [IConfig]: an optional field that is not given is [None] (for
    [context]: [JUndefined]). [cfg_storageProvider] is the provider in use
    (the one given, or the local one), [cfg_fetch] tells whether a request
    function is given or can be resolved. *)
Record IConfig : Type := {
  cfg_appName : string;
  cfg_environment : option string;
  cfg_url : option UrlInput;
  cfg_clientKey : string;
  cfg_disableRefresh : option bool;
  cfg_refreshInterval : option Z;
  cfg_metricsInterval : option Z;
  cfg_disableMetrics : option bool;
  cfg_storageProvider : Storage;
  cfg_context : JSValue;
  cfg_fetch : bool;
  cfg_bootstrap : option (list IToggle);
  cfg_bootstrapOverride : option bool;
  cfg_headerName : option string;
  cfg_customHeaders : option JSObject
}.

(** [bootstrap && bootstrap.length > 0]. *)
Definition nonempty_bootstrap (b : option (list IToggle)) : option (list IToggle) :=
  match b with
  | Some (t :: l) => Some (t :: l)
  | _ => None
  end.

(** [!url]: no url, or the empty string. *)
Definition url_missing (u : option UrlInput) : bool :=
  match u with
  | None | Some (url_string EmptyString _) => true
  | _ => false
  end.

(** [url instanceof URL ? url : new URL(url)]; [None] where [new URL]
    throws. *)
Definition resolve_url (u : option UrlInput) : option URL :=
  match u with
  | Some (url_object u) => Some u
  | Some (url_string _ parsed) => parsed
  | None => None
  end.

(** The message of the constructor for a missing request function. *)
Definition fetch_required : string :=
  "Unleash: You must either provide your own " +:+ dquote +:+ "fetch" +:+ dquote
    +:+ " implementation or run in an environment where " +:+ dquote +:+ "fetch"
    +:+ dquote +:+ " is available.".

(** The constructor up to its end: validation and field initialization.
    The initialization it starts is [ready]. The [onError] callback it
    hands to the metrics collector is [this.emit.bind(this, EVENTS.ERROR)]:
    see [metrics_onError] among the calls below. *)
Definition constructor (cfg : IConfig) : Completion UnleashClient :=
  if url_missing (cfg_url cfg) then Throw (Error "url is required")
  else if bool_decide (cfg_clientKey cfg = EmptyString) then
    Throw (Error "clientKey is required")
  else if bool_decide (cfg_appName cfg = EmptyString) then
    Throw (Error "appName is required.")
  else
    match resolve_url (cfg_url cfg) with
    | None => Throw (TypeError "Invalid URL")
    | Some url' =>
        Normal
          {| toggles := Toggles (default [] (nonempty_bootstrap (cfg_bootstrap cfg)));
             context :=
               spread (cfg_context cfg)
                 [("appName", JString (cfg_appName cfg));
                  ("environment", JString (default "default" (cfg_environment cfg)))];
             timerRef := None;
             storage := cfg_storageProvider cfg;
             refreshInterval :=
               if default false (cfg_disableRefresh cfg) then 0
               else default 30 (cfg_refreshInterval cfg) * 1000;
             url := url';
             clientKey := cfg_clientKey cfg;
             etag := EmptyString;
             metrics :=
               {| metrics_appName := cfg_appName cfg;
                  metrics_metricsInterval := default 30 (cfg_metricsInterval cfg);
                  metrics_disableMetrics := default false (cfg_disableMetrics cfg);
                  metrics_url := url';
                  metrics_clientKey := cfg_clientKey cfg;
                  metrics_fetch := cfg_fetch cfg;
                  metrics_headerName := default "Authorization" (cfg_headerName cfg);
                  metrics_started := false;
                  metrics_counts := [] |};
             fetch := cfg_fetch cfg;
             bootstrap := nonempty_bootstrap (cfg_bootstrap cfg);
             bootstrapOverride := default true (cfg_bootstrapOverride cfg);
             headerName := default "Authorization" (cfg_headerName cfg);
             customHeaders := default [] (cfg_customHeaders cfg);
             readyEventEmitted := false;
             emitted := [];
             console :=
               if cfg_fetch cfg then [] else [console_error fetch_required None];
             requests := [] |}
    end.

(** The promise [this.ready]: [init], and what its [catch] does with a
    failure. It always resolves. The calls a program makes between the
    constructor and the end of the initialization are not interleaved with
    it: the initialization runs as one step. *)
Definition ready (random : Z) : Action unit :=
  try_catch (init random)
    (fun error => log (console_error EmptyString (Some error));; emit (ERROR (Raw error))).

(** The state an action leaves. *)
Definition exec {A : Type} (m : Action A) (c : UnleashClient) : UnleashClient :=
  (m c).2.

(** [new UnleashClient(cfg)], with the initialization run to its end. *)
Definition new_UnleashClient (cfg : IConfig) (random : Z) : Completion UnleashClient :=
  match constructor cfg with
  | Normal c => Normal (exec (ready random) c)
  | Throw e => Throw e
  end.

(** ** Runs *)

(** What happens to a client after its initialization: the calls of the
    program, the firing of the interval timer (which calls [fetchToggles];
    a timer that was never set or was cleared does not fire), and the
    metrics collector calling the [onError] callback the constructor gave
    it, which publishes an [error] event with the failure the collector
    reports (when the collector does so is its own matter: its source is
    not at hand, and a run may have such a call anywhere). Every
    synchronization comes with the outcome the transport has for it. A
    call of the program that throws leaves the client as it is at the
    throw. *)
Inductive Call : Type :=
  | call_start (outcome : FetchOutcome) (handle : positive)
  | call_stop
  | call_updateContext (context' : JSObject) (outcome : FetchOutcome)
  | call_setContextField (field value : string) (outcome : FetchOutcome)
  | call_isEnabled (toggleName : string)
  | call_getVariant (toggleName : string)
  | timer_fires (outcome : FetchOutcome)
  | metrics_onError (e : JSError).

Definition step (call : Call) (c : UnleashClient) : UnleashClient :=
  match call with
  | call_start outcome handle => exec (start outcome handle) c
  | call_stop => exec stop c
  | call_updateContext context' outcome => exec (updateContext context' outcome) c
  | call_setContextField field value outcome =>
      exec (setContextField field value outcome) c
  | call_isEnabled toggleName => exec (isEnabled toggleName) c
  | call_getVariant toggleName => exec (getVariant toggleName) c
  | timer_fires outcome =>
      if bool_decide (is_Some (timerRef c)) then exec (fetchToggles outcome) c else c
  | metrics_onError e => exec (emit (ERROR (Raw e))) c
  end.

Definition run (calls : list Call) (c : UnleashClient) : UnleashClient :=
  fold_left (fun c call => step call c) calls c.

(** ** Specification-side definitions *)

(** The parameters the spec describes for one context entry: a field
    gives one parameter under its own name, a [properties] bag gives one
    parameter [properties[<key>]] for each of its defined entries. *)
Definition context_query_entry (e : string * JSValue) : list (string * string) :=
  if bool_decide (e.1 = "properties") && truthy e.2 then
    map (fun p : string * JSValue =>
           ("properties[" +:+ p.1 +:+ "]", ToString p.2))
      (filter (fun p => notNullOrUndefined p = true) (Object_entries e.2))
  else [(e.1, ToString e.2)].

(** The query the spec describes for a context: the parameters of its
    defined (non-null, non-undefined) entries. *)
Definition context_query (context : JSObject) : list (string * string) :=
  flat_map context_query_entry
    (filter (fun e => notNullOrUndefined e = true)
       (Object_entries (JObject context))).

(** The failure paths of a synchronization, each with the payload of the
    [error] event it is to give: a response that is neither ok nor 304, a
    rejected request, a body that cannot be parsed, a body that parses to
    [null]. *)
Inductive failure_path : FetchOutcome -> ErrorPayload -> Prop :=
  | failure_http (r : Response) :
      ok r = false -> status r <> 304 ->
      failure_path (Responded r) (HttpError (status r))
  | failure_rejected (e : JSError) :
      failure_path (Rejected e) (Raw e)
  | failure_body (r : Response) (e : JSError) :
      ok r = true -> status r <> 304 -> body r = BodyRejects e ->
      failure_path (Responded r) (Raw e)
  | failure_body_null (r : Response) :
      ok r = true -> status r <> 304 -> body r = BodyNullish ->
      failure_path (Responded r)
        (Raw (TypeError "Cannot read properties of null (reading 'toggles')")).

(** A response with fresh toggle data: ok, and not 304. *)
Definition fresh (outcome : FetchOutcome) : option Response :=
  match outcome with
  | Responded r =>
      if ok r && negb (bool_decide (status r = 304)) then Some r else None
  | Rejected _ => None
  end.

(** The outcome the transport has for the synchronization a call makes, if
    the call makes one. *)
Definition sync_outcome (call : Call) (c : UnleashClient) : option FetchOutcome :=
  match call with
  | call_start outcome _ =>
      if bool_decide (is_Some (timerRef c)) then None else Some outcome
  | call_updateContext _ outcome | call_setContextField _ _ outcome
  | timer_fires outcome =>
      if bool_decide (is_Some (timerRef c)) then Some outcome else None
  | _ => None
  end.



(** What the metrics collector reports through [onError] in the course of
    a run, oldest first. *)
Definition metrics_reports (calls : list Call) : list JSError :=
  omap (fun call => match call with metrics_onError e => Some e | _ => None end)
    calls.

(** A storage port that serves every call it is scheduled to receive. *)
Definition serves (s : Storage) : Prop :=
  Forall (fun f => f = None) (faults s).

(** The events published from a point of the log on. *)
Definition emitted_since (before after : UnleashClient) : list Event :=
  drop (length (emitted before)) (emitted after).


(** ** Sample data *)

Definition variantA : IVariant := IVariant.mk "blue" true (Some ("string", "b")).
Definition flagA : IToggle := IToggle.mk "flagA" true variantA true.
Definition flagB : IToggle := IToggle.mk "flagB" false defaultVariant false.
Definition flagC : IToggle := IToggle.mk "flagC" true defaultVariant false.

Definition emptyStorage : Storage :=
  {| cells := ∅; faults := []; journal := [] |}.

Definition cachedStorage : Storage :=
  {| cells := {[ storeKey := StoredToggles [flagC] ]}; faults := []; journal := [] |}.

Definition proxyUrl : URL :=
  {| href := "https://proxy.example.com/proxy"; searchParams := [] |}.

Definition sampleConfig : IConfig :=
  {| cfg_appName := "web";
     cfg_environment := Some "production";
     cfg_url := Some (url_object proxyUrl);
     cfg_clientKey := "12";
     cfg_disableRefresh := None;
     cfg_refreshInterval := None;
     cfg_metricsInterval := None;
     cfg_disableMetrics := None;
     cfg_storageProvider := emptyStorage;
     cfg_context :=
       JObject [("userId", JString "123");
                ("properties", JObject [("plan", JString "pro")])];
     cfg_fetch := true;
     cfg_bootstrap := None;
     cfg_bootstrapOverride := None;
     cfg_headerName := None;
     cfg_customHeaders := None |}.

(** The sample configuration with another storage, bootstrap and override
    flag. *)
Definition bootstrapConfig (s : Storage) (b : option (list IToggle))
    (override : option bool) : IConfig :=
  {| cfg_appName := cfg_appName sampleConfig;
     cfg_environment := cfg_environment sampleConfig;
     cfg_url := cfg_url sampleConfig;
     cfg_clientKey := cfg_clientKey sampleConfig;
     cfg_disableRefresh := cfg_disableRefresh sampleConfig;
     cfg_refreshInterval := cfg_refreshInterval sampleConfig;
     cfg_metricsInterval := cfg_metricsInterval sampleConfig;
     cfg_disableMetrics := cfg_disableMetrics sampleConfig;
     cfg_storageProvider := s;
     cfg_context := cfg_context sampleConfig;
     cfg_fetch := cfg_fetch sampleConfig;
     cfg_bootstrap := b;
     cfg_bootstrapOverride := override;
     cfg_headerName := cfg_headerName sampleConfig;
     cfg_customHeaders := cfg_customHeaders sampleConfig |}.

(** The client a configuration gives, initialized; for a configuration the
    constructor refuses, the client of the sample configuration before its
    initialization. *)
Definition client_of (cfg : IConfig) (random : Z) : UnleashClient :=
  match new_UnleashClient cfg random with
  | Normal c => c
  | Throw _ =>
      match constructor sampleConfig with
      | Normal c => c
      | Throw _ =>
          {| toggles := Toggles []; context := []; timerRef := None;
             storage := emptyStorage; refreshInterval := 0; url := proxyUrl;
             clientKey := "12"; etag := EmptyString;
             metrics :=
               {| metrics_appName := "web"; metrics_metricsInterval := 30;
                  metrics_disableMetrics := false; metrics_url := proxyUrl;
                  metrics_clientKey := "12"; metrics_fetch := false;
                  metrics_headerName := "Authorization";
                  metrics_started := false; metrics_counts := [] |};
             fetch := false; bootstrap := None; bootstrapOverride := true;
             headerName := "Authorization"; customHeaders := [];
             readyEventEmitted := false; emitted := []; console := [];
             requests := [] |}
      end
  end.

Definition sampleClient : UnleashClient := client_of sampleConfig 424242.

Definition okResponse (revision : option string) (l : list IToggle) : Response :=
  {| ok := true; status := 200; ETag := revision; body := BodyToggles l |}.

Definition notModified : Response :=
  {| ok := false; status := 304; ETag := None; body := BodyRejects (Failure "no body") |}.

Definition serverError : Response :=
  {| ok := false; status := 500; ETag := None; body := BodyRejects (Failure "no body") |}.

(** The sample client after a first synchronization. *)
Definition syncedClient : UnleashClient :=
  exec (fetchToggles (Responded (okResponse (Some "v1") [flagA; flagB]))) sampleClient.

Definition garbledResponse : Response :=
  {| ok := true; status := 200; ETag := Some "v9";
     body := BodyRejects (Failure "Unexpected token < in JSON") |}.

(** An ok response whose body is [{}]. *)
Definition shapelessResponse : Response :=
  {| ok := true; status := 200; ETag := Some "v3";
     body := BodyNoToggles nullish_undefined |}.

(** ** Resolution of the transport *)







(** The sample client, started: a first synchronization done and the
    refresh timer running. *)
Definition pollingClient : UnleashClient :=
  exec (start (Responded (okResponse (Some "v1") [flagA; flagB])) 1%positive)
    sampleClient.

(** The client of the sample configuration as the constructor leaves it,
    before its initialization. *)
Definition freshClient : UnleashClient :=
  match constructor sampleConfig with
  | Normal c => c
  | Throw _ => sampleClient
  end.

(** The sample configuration where no request function is given or can be
    resolved, and its client. *)
Definition noFetchConfig : IConfig :=
  {| cfg_appName := cfg_appName sampleConfig;
     cfg_environment := cfg_environment sampleConfig;
     cfg_url := cfg_url sampleConfig;
     cfg_clientKey := cfg_clientKey sampleConfig;
     cfg_disableRefresh := cfg_disableRefresh sampleConfig;
     cfg_refreshInterval := cfg_refreshInterval sampleConfig;
     cfg_metricsInterval := cfg_metricsInterval sampleConfig;
     cfg_disableMetrics := cfg_disableMetrics sampleConfig;
     cfg_storageProvider := cachedStorage;
     cfg_context := cfg_context sampleConfig;
     cfg_fetch := false;
     cfg_bootstrap := cfg_bootstrap sampleConfig;
     cfg_bootstrapOverride := cfg_bootstrapOverride sampleConfig;
     cfg_headerName := cfg_headerName sampleConfig;
     cfg_customHeaders := cfg_customHeaders sampleConfig |}.

Definition noFetchClient : UnleashClient := client_of noFetchConfig 7.

(** A storage port whose first call is rejected. *)
Definition failingStorage : Storage :=
  {| cells := ∅; faults := [Some (Failure "QuotaExceededError")]; journal := [] |}.

(** The sample client with custom headers, one of them overriding the
    conditional-request header. *)
Definition customHeadersClient : UnleashClient :=
  client_of
    {| cfg_appName := cfg_appName sampleConfig;
       cfg_environment := cfg_environment sampleConfig;
       cfg_url := cfg_url sampleConfig;
       cfg_clientKey := cfg_clientKey sampleConfig;
       cfg_disableRefresh := cfg_disableRefresh sampleConfig;
       cfg_refreshInterval := cfg_refreshInterval sampleConfig;
       cfg_metricsInterval := cfg_metricsInterval sampleConfig;
       cfg_disableMetrics := cfg_disableMetrics sampleConfig;
       cfg_storageProvider := emptyStorage;
       cfg_context := cfg_context sampleConfig;
       cfg_fetch := true;
       cfg_bootstrap := None;
       cfg_bootstrapOverride := None;
       cfg_headerName := Some "X-Key";
       cfg_customHeaders :=
         Some [("X-Trace", JString "on"); ("If-None-Match", JString "always");
               ("X-Skip", JUndefined)] |}
    7.

(** * Properties *)

(** ** Sanity checks of the embedding *)

Example own_entries_order :
  own_entries [("b", JString "x"); ("10", JString "y"); ("2", JString "z");
               ("01", JNull)]
  = [("2", JString "z"); ("10", JString "y"); ("b", JString "x"); ("01", JNull)].
Proof. vm_compute. reflexivity. Qed.

Example spread_overrides :
  spread (JObject [("a", JNumber 1); ("c", JNull)]) [("a", JNumber 0); ("b", JNull)]
  = [("a", JNumber 1); ("b", JNull); ("c", JNull)].
Proof. vm_compute. reflexivity. Qed.

Example sampleClient_context :
  context sampleClient
  = [("sessionId", JNumber 424242); ("appName", JString "web");
     ("environment", JString "production"); ("userId", JString "123");
     ("properties", JObject [("plan", JString "pro")])].
Proof. vm_compute. reflexivity. Qed.

Example sampleClient_query :
  searchParams (urlWithQuery sampleClient)
  = [("sessionId", "424242"); ("appName", "web"); ("environment", "production");
     ("userId", "123"); ("properties[plan]", "pro")].
Proof. vm_compute. reflexivity. Qed.

Example sampleClient_first_sync :
  emitted (exec (fetchToggles (Responded (okResponse (Some "v1") [flagA]))) sampleClient)
  = [INIT; UPDATE; READY].
Proof. vm_compute. reflexivity. Qed.

Example garbled_body_is_reported :
  emitted (exec (fetchToggles (Responded garbledResponse)) syncedClient)
  = emitted syncedClient ++ [ERROR (Raw (Failure "Unexpected token < in JSON"))]
  /\ toggles (exec (fetchToggles (Responded garbledResponse)) syncedClient)
    = Toggles [flagA; flagB].
Proof. vm_compute. split; reflexivity. Qed.

(** ** Evaluation *)




(** ** Synchronization *)

(** Unfolding of the monad and of the actions a proof steps through. *)
Ltac unfold_actions :=
  unfold fetchToggles, await_fetch, json_toggles, storeToggles, try_catch,
    storage_save, storage_get, receive, emit, log, throw, assign, this, exec,
    mbind, Action_bind, mret, Action_ret in *.

Lemma fetchToggles_unavailable (outcome : FetchOutcome) (c : UnleashClient) :
  fetch c = false -> fetchToggles outcome c = (Normal tt, c).
Proof. intros Hf. unfold_actions. cbn. rewrite Hf. reflexivity. Qed.

(** The synchronization always completes normally. *)
Lemma fetchToggles_completes (outcome : FetchOutcome) (c : UnleashClient) :
  (fetchToggles outcome c).1 = Normal tt.
Proof.
  unfold_actions. cbn.
  destruct (fetch c); [|reflexivity].
  destruct outcome as [e|r]; cbn; [reflexivity|].
  destruct (ok r), (bool_decide (status r = 304)); cbn; try reflexivity.
  destruct (body r); cbn; try reflexivity.
  all: destruct (head (faults (storage c))) as [[e|]|]; cbn; try reflexivity;
    destruct (bootstrap c), (readyEventEmitted c); reflexivity.
Qed.

(** C5. A synchronization that receives a 304 response leaves the toggle
    snapshot, the revision marker and the storage (cells, and no call made)
    as they were, publishes no event, and completes normally. *)
Theorem not_modified_is_silent (c : UnleashClient) (r : Response) :
  status r = 304 ->
  let c' := exec (fetchToggles (Responded r)) c in
  (fetchToggles (Responded r) c).1 = Normal tt
  /\ toggles c' = toggles c
  /\ etag c' = etag c
  /\ storage c' = storage c
  /\ emitted c' = emitted c.
Proof.
  intros Hs. split; [apply fetchToggles_completes|].
  unfold_actions. cbn.
  destruct (fetch c); [|done]. cbn.
  rewrite Hs. cbn. rewrite !andb_false_r. done.
Qed.

Lemma not_modified_is_silent_witness :
  status notModified = 304
  /\ toggles (exec (fetchToggles (Responded notModified)) syncedClient)
     = Toggles [flagA; flagB]
  /\ etag (exec (fetchToggles (Responded notModified)) syncedClient) = "v1".
Proof.
  split; [reflexivity|].
  destruct (not_modified_is_silent syncedClient notModified eq_refl)
    as (_ & Ht & He & _).
  rewrite Ht, He. split; reflexivity.
Defined.

(** C1. When the transport returns an ok response that is not a 304 and
    whose body is [{toggles: T}], the synchronization makes [T] the
    snapshot, so that [getAllToggles()] returns [T] in the same order; it
    asks the storage port to save [T] under the cache key (and the port,
    when it serves the call, then holds [T] there); and among the events it
    publishes there is exactly one [update]. *)
Theorem successful_sync_replaces_snapshot
    (c : UnleashClient) (r : Response) (T : list IToggle) :
  fetch c = true -> ok r = true -> status r <> 304 -> body r = BodyToggles T ->
  let c' := exec (fetchToggles (Responded r)) c in
  toggles c' = Toggles T
  /\ getAllToggles c' = Normal T
  /\ journal (storage c')
     = journal (storage c) ++ [save_call storeKey (StoredToggles T)]
  /\ (default None (head (faults (storage c))) = None ->
      cells (storage c') = <[storeKey := StoredToggles T]> (cells (storage c)))
  /\ exists new, emitted c' = emitted c ++ new /\ occurrences is_UPDATE new = 1%nat.
Proof.
  intros Hf Hok Hs Hb. unfold getAllToggles. unfold_actions. cbn.
  rewrite Hf. cbn. rewrite Hok, (bool_decide_eq_false_2 _ Hs), Hb. cbn.
  destruct (head (faults (storage c))) as [[e|]|]; cbn.
  - repeat split; [discriminate|].
    exists [UPDATE; ERROR (Raw e)]. rewrite <- !app_assoc. done.
  - destruct (bootstrap c) as [b|], (readyEventEmitted c); cbn.
    all: repeat split.
    all: try done.
    all: first [ by exists [UPDATE]
               | exists [UPDATE; READY]; rewrite <- !app_assoc; done ].
  - destruct (bootstrap c) as [b|], (readyEventEmitted c); cbn.
    all: repeat split.
    all: try done.
    all: first [ by exists [UPDATE]
               | exists [UPDATE; READY]; rewrite <- !app_assoc; done ].
Qed.

Lemma successful_sync_replaces_snapshot_witness :
  fetch sampleClient = true
  /\ getAllToggles
       (exec (fetchToggles (Responded (okResponse (Some "v1") [flagA; flagB])))
          sampleClient)
     = Normal [flagA; flagB].
Proof.
  split; [reflexivity|].
  apply (successful_sync_replaces_snapshot sampleClient
           (okResponse (Some "v1") [flagA; flagB]) [flagA; flagB]);
    [reflexivity | reflexivity | discriminate | reflexivity].
Defined.

(** X22. A synchronization never throws: whatever the transport and the
    storage do, it completes normally. On each of these failure paths: a
    response that is neither ok nor 304, a rejected request, a body that
    cannot be parsed, a body that parses to [null], it publishes exactly
    one event, the [error] event with the payload of that path (the status
    code for the HTTP case, the raw failure otherwise), and the toggle
    snapshot stays as it was. *)
Theorem sync_failures_are_contained
    (c : UnleashClient) (outcome : FetchOutcome) :
  (fetchToggles outcome c).1 = Normal tt
  /\ forall payload,
       fetch c = true -> failure_path outcome payload ->
       let c' := exec (fetchToggles outcome) c in
       emitted c' = emitted c ++ [ERROR payload]
       /\ occurrences is_ERROR (emitted_since c c') = 1%nat
       /\ toggles c' = toggles c.
Proof.
  split; [apply fetchToggles_completes|].
  intros payload Hf Hfail. unfold emitted_since.
  destruct Hfail as [r Hok Hs | e | r e Hok Hs Hb | r Hok Hs Hb];
    unfold_actions; cbn; rewrite Hf; cbn;
    rewrite ?Hok, ?(bool_decide_eq_false_2 _ Hs), ?Hb; cbn;
    rewrite drop_app_length; done.
Qed.

Lemma sync_failures_are_contained_witness :
  fetch sampleClient = true
  /\ failure_path (Responded serverError) (HttpError 500)
  /\ emitted (exec (fetchToggles (Responded serverError)) sampleClient)
     = emitted sampleClient ++ [ERROR (HttpError 500)].
Proof.
  split; [reflexivity|].
  assert (Hp : failure_path (Responded serverError) (HttpError 500)).
  { apply (failure_http serverError); [reflexivity | discriminate]. }
  split; [exact Hp|].
  apply (proj2 (sync_failures_are_contained sampleClient (Responded serverError))
           (HttpError 500) eq_refl Hp).
Defined.

(** C4. A response body that parses but holds no toggle list (such as
    [{}], a number, or [{toggles: null}]) is a malformed body that the
    synchronization does not contain. With an ok response that is not a 304
    and a storage port that serves the save, the synchronization completes
    normally and publishes no [error] event but one [update]; the snapshot
    does not stay as it was: it is replaced by [undefined] (or [null]),
    which is also what is saved under the cache key; and from then on
    [isEnabled] and [getVariant] throw a [TypeError] for every name, and so
    does [getAllToggles]. *)
Theorem shapeless_body_is_not_contained
    (c : UnleashClient) (r : Response) (n : Nullish) :
  fetch c = true -> ok r = true -> status r <> 304 -> body r = BodyNoToggles n ->
  default None (head (faults (storage c))) = None ->
  let c' := exec (fetchToggles (Responded r)) c in
  (fetchToggles (Responded r) c).1 = Normal tt
  /\ toggles c' = NoToggles n
  /\ occurrences is_ERROR (emitted_since c c') = 0%nat
  /\ occurrences is_UPDATE (emitted_since c c') = 1%nat
  /\ cells (storage c')
     = <[storeKey := StoredValue (nullish_value n)]> (cells (storage c))
  /\ (forall name, isEnabled name c' = (Throw (cannot_read n "find"), c'))
  /\ (forall name, getVariant name c' = (Throw (cannot_read n "find"), c'))
  /\ exists message, getAllToggles c' = Throw (TypeError message).
Proof.
  intros Hf Hok Hs Hb Hserved. split; [apply fetchToggles_completes|].
  unfold emitted_since, getAllToggles, isEnabled, getVariant.
  unfold_actions; cbn. rewrite Hf; cbn.
  rewrite Hok, (bool_decide_eq_false_2 _ Hs), Hb; cbn. rewrite Hserved; cbn.
  destruct (bootstrap c), (readyEventEmitted c); cbn;
    rewrite <- ?app_assoc, drop_app_length; repeat split; by eexists.
Qed.

Lemma shapeless_body_is_not_contained_witness :
  fetch syncedClient = true
  /\ toggles syncedClient = Toggles [flagA; flagB]
  /\ toggles (exec (fetchToggles (Responded shapelessResponse)) syncedClient)
     = NoToggles nullish_undefined
  /\ occurrences is_ERROR
       (emitted_since syncedClient
          (exec (fetchToggles (Responded shapelessResponse)) syncedClient))
     = 0%nat.
Proof.
  split; [reflexivity|]. split; [reflexivity|].
  destruct (shapeless_body_is_not_contained syncedClient shapelessResponse
              nullish_undefined eq_refl eq_refl ltac:(discriminate) eq_refl eq_refl)
    as (_ & Ht & He & _).
  split; [exact Ht | exact He].
Defined.

(** ** JavaScript objects *)

Section Objects.
Context {A : Type}.
Implicit Types (o : list (string * A)) (k : string).

Lemma insert_by_index_perm (e : N * (string * A)) (l : list (N * (string * A))) :
  insert_by_index e l ≡ₚ e :: l.
Proof.
  induction l as [|e' l IH]; cbn; [done|].
  case_bool_decide; [done|]. rewrite IH. apply Permutation_swap.
Qed.

Lemma sort_by_index_perm (l : list (N * (string * A))) : sort_by_index l ≡ₚ l.
Proof.
  induction l as [|e l IH]; cbn; [done|].
  rewrite insert_by_index_perm. by rewrite IH.
Qed.

(** The entries [Object.entries] lists are the entries of the object. *)
Lemma own_entries_perm o : own_entries o ≡ₚ o.
Proof.
  unfold own_entries. rewrite sort_by_index_perm.
  induction o as [|[k v] o IH]; [done|].
  cbn. destruct (array_index k) as [n|] eqn:Hk; cbn.
  - rewrite decide_False by done. cbn. by rewrite IH.
  - rewrite decide_True by done.
    rewrite <- Permutation_middle. by rewrite IH.
Qed.

Lemma elem_of_own_entries o (e : string * A) : e ∈ own_entries o <-> e ∈ o.
Proof. by rewrite own_entries_perm. Qed.

Lemma obj_get_None o k : obj_get k o = None <-> k ∉ o.*1.
Proof.
  induction o as [|[k' v] o IH]; cbn.
  - split; [intros _; apply not_elem_of_nil | done].
  - case_decide as Hk; subst.
    + split; [done|]. intros Hn. exfalso. apply Hn. left.
    + rewrite IH, not_elem_of_cons. split; [by split | by intros [_ ?]].
Qed.

Lemma obj_get_Some_elem o k (v : A) : obj_get k o = Some v -> (k, v) ∈ o.
Proof.
  induction o as [|[k' v'] o IH]; cbn; [done|].
  case_decide as Hk; subst.
  - intros [= ->]. left.
  - intros Hg. right. by apply IH.
Qed.

Lemma obj_get_NoDup o k (v : A) :
  NoDup o.*1 -> (k, v) ∈ o -> obj_get k o = Some v.
Proof.
  induction o as [|[k' v'] o IH]; cbn; intros Hnd Hin.
  - by apply elem_of_nil in Hin.
  - apply NoDup_cons in Hnd as [Hk' Hnd].
    apply elem_of_cons in Hin as [[= -> ->]|Hin].
    + by rewrite decide_True.
    + rewrite decide_False; [by apply IH|].
      intros ->. apply Hk'. apply list_elem_of_fmap. by exists (k, v).
Qed.

Lemma obj_get_set o k k' (v : A) :
  obj_get k (obj_set k' v o) = if decide (k' = k) then Some v else obj_get k o.
Proof.
  induction o as [|[k'' v''] o IH]; cbn; [done|].
  destruct (decide (k'' = k')) as [->|Hne]; cbn.
  - destruct (decide (k' = k)); done.
  - rewrite IH.
    destruct (decide (k'' = k)), (decide (k' = k)); subst; done.
Qed.

(** Assignments in a row: a key none of them names keeps what it had. *)
Lemma obj_get_fold_set_other (l o : list (string * A)) k :
  k ∉ l.*1 ->
  obj_get k (fold_left (fun t e => obj_set e.1 e.2 t) l o) = obj_get k o.
Proof.
  revert o. induction l as [|[k' v'] l IH]; intros o Hk; cbn; [done|].
  cbn in Hk. apply not_elem_of_cons in Hk as [Hne Hk].
  rewrite IH by done. rewrite obj_get_set. by rewrite decide_False.
Qed.

(** Assignments in a row, each key named once: a key one of them names
    takes the value given there. *)
Lemma obj_get_fold_set_elem (l o : list (string * A)) k (v : A) :
  NoDup l.*1 -> (k, v) ∈ l ->
  obj_get k (fold_left (fun t e => obj_set e.1 e.2 t) l o) = Some v.
Proof.
  revert o. induction l as [|[k' v'] l IH]; intros o Hnd Hin; cbn.
  - by apply elem_of_nil in Hin.
  - cbn in Hnd. apply NoDup_cons in Hnd as [Hk' Hnd].
    apply elem_of_cons in Hin as [[= -> ->]|Hin].
    + rewrite obj_get_fold_set_other by done.
      rewrite obj_get_set. by rewrite decide_True.
    + by apply IH.
Qed.
End Objects.

Lemma spread_object_absent (p target : JSObject) (k : string) :
  obj_get k p = None -> obj_get k (spread (JObject p) target) = obj_get k target.
Proof.
  intros Hp. unfold spread. cbn. apply obj_get_fold_set_other.
  intros Hin. apply obj_get_None in Hp. apply Hp.
  apply list_elem_of_fmap in Hin as [e [-> He]].
  rewrite elem_of_own_entries in He.
  apply list_elem_of_fmap. by exists e.
Qed.

Lemma spread_object_present (p target : JSObject) (k : string) (v : JSValue) :
  NoDup p.*1 -> obj_get k p = Some v ->
  obj_get k (spread (JObject p) target) = Some v.
Proof.
  intros Hnd Hp. unfold spread. cbn. apply obj_get_fold_set_elem.
  - by rewrite own_entries_perm.
  - rewrite elem_of_own_entries. by apply obj_get_Some_elem.
Qed.

(** ** The request URL *)

(** What a synchronization leaves alone, and the request it sends. *)
Ltac fetchToggles_cases c outcome :=
  unfold_actions; cbn;
  destruct (fetch c); [|done];
  destruct outcome as [?e|?r]; cbn; [done|];
  destruct (ok _), (bool_decide (status _ = 304)); cbn; try done;
  destruct (body _); cbn; try done;
  destruct (head (faults (storage c))) as [[?e|]|]; cbn; try done;
  destruct (bootstrap c) eqn:?, (readyEventEmitted c) eqn:?; done.

Lemma fetchToggles_context (outcome : FetchOutcome) (c : UnleashClient) :
  context (exec (fetchToggles outcome) c) = context c.
Proof. fetchToggles_cases c outcome. Qed.

Lemma fetchToggles_request (outcome : FetchOutcome) (c : UnleashClient) :
  fetch c = true ->
  requests (exec (fetchToggles outcome) c)
  = requests c ++ [{| req_url := urlWithQuery c; req_headers := getHeaders c |}].
Proof. intros Hf. revert Hf. fetchToggles_cases c outcome. Qed.

Lemma fold_append_searchParams {B : Type} (f g : B -> string) (l : list B) (u : URL) :
  fold_left (fun u p => append (f p) (g p) u) l u
  = {| href := href u;
       searchParams := searchParams u ++ map (fun p => (f p, g p)) l |}.
Proof.
  revert u. induction l as [|p l IH]; intros u; cbn.
  - rewrite app_nil_r. by destruct u.
  - rewrite IH. cbn. by rewrite <- app_assoc.
Qed.

(** One round of the loop appends what the spec says for that entry. *)
Lemma append_context_entry_spec (u : URL) (e : string * JSValue) :
  append_context_entry u e
  = {| href := href u;
       searchParams := searchParams u ++ context_query_entry e |}.
Proof.
  unfold append_context_entry, context_query_entry. destruct e as [k v]. cbn.
  destruct (bool_decide (k = "properties") && truthy v).
  - apply (fold_append_searchParams
             (fun p : string * JSValue => "properties[" +:+ p.1 +:+ "]")
             (fun p : string * JSValue => ToString p.2)).
  - reflexivity.
Qed.

Lemma fold_append_context_entry (l : JSObject) (u : URL) :
  fold_left append_context_entry l u
  = {| href := href u;
       searchParams := searchParams u ++ flat_map context_query_entry l |}.
Proof.
  revert u. induction l as [|e l IH]; intros u; cbn.
  - rewrite app_nil_r. by destruct u.
  - rewrite IH, append_context_entry_spec. cbn. by rewrite <- app_assoc.
Qed.

Lemma urlWithQuery_spec (c : UnleashClient) :
  urlWithQuery c
  = {| href := href (url c);
       searchParams := searchParams (url c) ++ context_query (context c) |}.
Proof. apply fold_append_context_entry. Qed.

(** Which parameters the query of a context holds. *)
Lemma elem_of_context_query (context : JSObject) (name value : string) :
  (name, value) ∈ context_query context <->
    (exists v, (name, v) ∈ context /\ notNullOrUndefined (name, v) = true
               /\ (bool_decide (name = "properties") && truthy v) = false
               /\ value = ToString v)
    \/ (exists bag key v,
          ("properties", bag) ∈ context /\ truthy bag = true
          /\ (key, v) ∈ Object_entries bag /\ notNullOrUndefined (key, v) = true
          /\ name = "properties[" +:+ key +:+ "]" /\ value = ToString v).
Proof.
  unfold context_query. rewrite list_elem_of_In, in_flat_map. split.
  - intros [[k v] [Hin Hq]].
    apply list_elem_of_In, list_elem_of_filter in Hin as [Hdef Hin].
    cbn in Hin. rewrite elem_of_own_entries in Hin.
    unfold context_query_entry in Hq. cbn in Hq.
    destruct (bool_decide (k = "properties") && truthy v) eqn:Hbag.
    + apply andb_true_iff in Hbag as [Hk Hbag]. apply bool_decide_eq_true in Hk.
      subst k. right.
      apply in_map_iff in Hq as [[key pv] [[= <- <-] Hp]].
      apply list_elem_of_In, list_elem_of_filter in Hp as [Hpdef Hp].
      by exists v, key, pv.
    + destruct Hq as [[= <- <-]|[]]. left. by exists v.
  - intros [[v (Hin & Hdef & Hbag & ->)] | (bag & key & v & Hin & Hbag & Hp & Hdef & -> & ->)].
    + exists (name, v). split.
      * apply list_elem_of_In, list_elem_of_filter. split; [done|].
        cbn. by rewrite elem_of_own_entries.
      * unfold context_query_entry. cbn. rewrite Hbag. by left.
    + exists ("properties", bag). split.
      * apply list_elem_of_In, list_elem_of_filter. split.
        { by destruct bag. }
        cbn. by rewrite elem_of_own_entries.
      * unfold context_query_entry. cbn. rewrite Hbag. cbn.
        apply in_map_iff. exists (key, v). split; [done|].
        apply list_elem_of_In, list_elem_of_filter. done.
Qed.

(** C8. The URL of the synchronization request is the configured URL with
    parameters appended after those it has: every context field that holds
    a value (not [null], not [undefined]) gives one parameter under the
    field's name, except the [properties] bag, each entry of which gives
    the parameter [properties[<key>]] with the entry's value (every entry,
    for a bag of strings, as [IMutableContext] types it); nothing else is
    appended, and a [properties] bag never appears as a parameter named
    [properties] itself. *)
Theorem request_url_carries_context (c : UnleashClient) :
  let query := context_query (context c) in
  (forall outcome,
     fetch c = true ->
     requests (exec (fetchToggles outcome) c)
     = requests c ++ [{| req_url := urlWithQuery c; req_headers := getHeaders c |}])
  /\ urlWithQuery c
    = {| href := href (url c); searchParams := searchParams (url c) ++ query |}
  /\ (forall name value,
       (name, value) ∈ query <->
         (exists v, (name, v) ∈ context c /\ notNullOrUndefined (name, v) = true
                    /\ (bool_decide (name = "properties") && truthy v) = false
                    /\ value = ToString v)
         \/ (exists bag key v,
               ("properties", bag) ∈ context c /\ truthy bag = true
               /\ (key, v) ∈ Object_entries bag
               /\ notNullOrUndefined (key, v) = true
               /\ name = "properties[" +:+ key +:+ "]" /\ value = ToString v))
  /\ (forall bag,
       NoDup (context c).*1 -> ("properties", JObject bag) ∈ context c ->
       (forall key s, (key, JString s) ∈ bag ->
                      ("properties[" +:+ key +:+ "]", s) ∈ query)
       /\ (forall value, ("properties", value) ∉ query)).
Proof.
  cbn. split; [intros outcome Hf; by apply fetchToggles_request|].
  split; [apply urlWithQuery_spec|].
  split; [apply elem_of_context_query|].
  intros bag Hnd Hbag. split.
  - intros key s Hin. apply elem_of_context_query. right.
    exists (JObject bag), key, (JString s). cbn.
    rewrite elem_of_own_entries. done.
  - intros value Hq. apply elem_of_context_query in Hq
      as [[v (Hin & _ & Hflat & _)] | (b & key & v & _ & _ & _ & _ & Hname & _)].
    + assert (Hv : Some v = Some (JObject bag)).
      { rewrite <- (obj_get_NoDup (context c) "properties" v Hnd Hin).
        by apply obj_get_NoDup. }
      injection Hv as ->. discriminate Hflat.
    + discriminate Hname.
Qed.

Lemma request_url_carries_context_witness :
  NoDup (context sampleClient).*1
  /\ ("properties", JObject [("plan", JString "pro")]) ∈ context sampleClient
  /\ ("properties[plan]", "pro") ∈ context_query (context sampleClient).
Proof.
  assert (Hnd : NoDup (context sampleClient).*1).
  { apply (bool_decide_unpack _). vm_compute. exact I. }
  assert (Hin : ("properties", JObject [("plan", JString "pro")]) ∈ context sampleClient).
  { vm_compute. do 4 right. left. }
  split; [exact Hnd|]. split; [exact Hin|].
  apply (proj1 (proj2 (proj2 (proj2 (request_url_carries_context sampleClient)))
                  [("plan", JString "pro")] Hnd Hin) "plan" "pro").
  left.
Defined.

(** ** The context store *)

Lemma updateContext_context (p : JSObject) (outcome : FetchOutcome) (c : UnleashClient) :
  context (exec (updateContext p outcome) c)
  = spread (JObject p)
      [("environment", obj_read "environment" (context c));
       ("appName", obj_read "appName" (context c))].
Proof.
  unfold updateContext.
  destruct (truthy (obj_read "appName" p) || truthy (obj_read "environment" p));
    unfold exec, mbind, Action_bind, log, assign, this, mret, Action_ret; cbn;
    (destruct (bool_decide (is_Some (timerRef c)));
     [apply (fetchToggles_context outcome) | reflexivity]).
Qed.

Lemma updateContext_completes (p : JSObject) (outcome : FetchOutcome) (c : UnleashClient) :
  (updateContext p outcome c).1 = Normal tt.
Proof.
  unfold updateContext.
  destruct (truthy (obj_read "appName" p) || truthy (obj_read "environment" p));
    unfold mbind, Action_bind, log, assign, this, mret, Action_ret; cbn;
    (destruct (bool_decide (is_Some (timerRef c)));
     [apply fetchToggles_completes | reflexivity]).
Qed.

(** C10. [updateContext(p)] completes normally and leaves as the context
    the static fields, read from the context it finds, with the fields of
    [p] over them: a field of [p] is in the new context with the value [p]
    gives it, and any other field than [appName] and [environment] (the
    user id, the session id resolved by the initialization, the remote
    address, the properties) is no longer in the context. *)
Theorem updateContext_replaces_mutable_context
    (c : UnleashClient) (p : JSObject) (outcome : FetchOutcome) :
  let c' := exec (updateContext p outcome) c in
  (updateContext p outcome c).1 = Normal tt
  /\ context c'
    = spread (JObject p)
        [("environment", obj_read "environment" (context c));
         ("appName", obj_read "appName" (context c))]
  /\ (forall k, k <> "appName" -> k <> "environment" ->
                obj_get k p = None -> obj_get k (context c') = None)
  /\ (forall k v, NoDup p.*1 -> obj_get k p = Some v ->
                  obj_get k (context c') = Some v)
  /\ (obj_get "appName" p = None ->
      obj_get "appName" (context c') = Some (obj_read "appName" (context c)))
  /\ (obj_get "environment" p = None ->
      obj_get "environment" (context c')
      = Some (obj_read "environment" (context c))).
Proof.
  cbn. split; [apply updateContext_completes|].
  rewrite updateContext_context. split; [reflexivity|].
  split; [|split; [|split]].
  - intros k Ha He Hp. rewrite spread_object_absent by done. cbn.
    rewrite !decide_False by done. reflexivity.
  - intros k v Hnd Hp. by apply spread_object_present.
  - intros Hp. rewrite spread_object_absent by done. reflexivity.
  - intros Hp. rewrite spread_object_absent by done. reflexivity.
Qed.

Lemma updateContext_replaces_mutable_context_witness :
  obj_get "sessionId" (context sampleClient) = Some (JNumber 424242)
  /\ obj_get "sessionId" [("userId", JString "x")] = None
  /\ obj_get "sessionId"
       (context (exec (updateContext [("userId", JString "x")]
                         (Responded notModified)) sampleClient))
     = None.
Proof.
  split; [reflexivity|]. split; [reflexivity|].
  apply (proj1 (proj2 (proj2 (updateContext_replaces_mutable_context sampleClient
                                [("userId", JString "x")] (Responded notModified))))
           "sessionId");
    [discriminate | discriminate | reflexivity].
Defined.

(** [setContextField] leaves a field it is not asked to set as it was: for
    a context whose keys are distinct, the static fields among them. *)
Lemma setContextField_other_field
    (c : UnleashClient) (field value : string) (outcome : FetchOutcome) (k : string) :
  NoDup (context c).*1 -> k <> field -> k <> "properties" ->
  obj_get k (context (exec (setContextField field value outcome) c))
  = obj_get k (context c).
Proof.
  intros Hnd Hk Hp.
  assert (Hcopy : obj_get k (spread (JObject (context c)) []) = obj_get k (context c)).
  { destruct (obj_get k (context c)) as [v|] eqn:Hget.
    - by apply spread_object_present.
    - by rewrite spread_object_absent. }
  unfold setContextField.
  unfold exec, mbind, Action_bind, assign, this, mret, Action_ret; cbn.
  destruct (bool_decide (field ∈ DEFINED_FIELDS)); cbn;
    (destruct (bool_decide (is_Some (timerRef c)));
     [etrans; [apply (f_equal (obj_get k)), (fetchToggles_context outcome)|]|]);
    cbn; rewrite obj_get_set, decide_False by done; exact Hcopy.
Qed.

(** C3. The static fields do not keep their values through
    [updateContext]: the call warns that [appName] and [environment] cannot
    be updated, and then lets the payload's values replace them. *)
Theorem updateContext_overwrites_static_fields :
  let p := [("appName", JString "other"); ("environment", JString "dev")] in
  let c' := exec (updateContext p (Responded notModified)) sampleClient in
  obj_get "appName" (context sampleClient) = Some (JString "web")
  /\ obj_get "environment" (context sampleClient) = Some (JString "production")
  /\ obj_get "appName" (context c') = Some (JString "other")
  /\ obj_get "environment" (context c') = Some (JString "dev")
  /\ console c'
     = console sampleClient
       ++ [console_warn
             "appName and environment are static. They can't be updated with updateContext."].
Proof. vm_compute. repeat split; reflexivity. Qed.

(** ** The revision marker *)

Lemma fetchToggles_etag (outcome : FetchOutcome) (c : UnleashClient) :
  etag (exec (fetchToggles outcome) c)
  = if fetch c then
      match fresh outcome with
      | Some r => default EmptyString (ETag r)
      | None => etag c
      end
    else etag c.
Proof.
  unfold fresh. unfold_actions; cbn.
  destruct (fetch c); [|done].
  destruct outcome as [e|r]; cbn; [done|].
  destruct (ok r), (bool_decide (status r = 304)); cbn; try done.
  destruct (body r); cbn; try done.
  all: destruct (head (faults (storage c))) as [[e|]|]; cbn; try done;
    destruct (bootstrap c), (readyEventEmitted c); done.
Qed.

(** What an action leaves in a field, case by case over what the storage
    schedule and the action's tests can be. *)
Ltac crunch_action :=
  unfold_actions; cbn;
  repeat (case_match; cbn; simplify_eq; try done).

Lemma ready_etag (random : Z) (c : UnleashClient) :
  etag (exec (ready random) c) = etag c.
Proof.
  unfold ready, init, resolveSessionId. crunch_action.
Qed.

Lemma constructor_etag (cfg : IConfig) (c : UnleashClient) :
  constructor cfg = Normal c -> etag c = EmptyString.
Proof.
  unfold constructor. repeat case_match; intros [= <-]; reflexivity.
Qed.

Lemma fetchToggles_etag_ext (outcome : FetchOutcome) (c1 c2 : UnleashClient) :
  fetch c1 = fetch c2 -> etag c1 = etag c2 ->
  etag (fetchToggles outcome c1).2 = etag (fetchToggles outcome c2).2.
Proof.
  intros Hf He.
  pose proof (fetchToggles_etag outcome c1) as H1.
  pose proof (fetchToggles_etag outcome c2) as H2.
  unfold exec in H1, H2. rewrite H1, H2, Hf, He. reflexivity.
Qed.

(** A call changes the marker only through the synchronization it makes. *)
Lemma step_etag (call : Call) (c : UnleashClient) :
  etag (step call c)
  = match sync_outcome call c with
    | Some outcome => etag (exec (fetchToggles outcome) c)
    | None => etag c
    end.
Proof.
  unfold exec.
  destruct call as [o h| |p o|f v o|n|n|o|err]; cbn.
  - unfold start, exec, mbind, Action_bind, log, assign, this, mret, Action_ret; cbn.
    destruct (bool_decide (is_Some (timerRef c))); cbn; [done|].
    rewrite <- (fetchToggles_etag_ext o
      (set_metrics (metrics_set_started true (metrics c)) c) c) by done.
    destruct (fetchToggles o _) as [[[]|e] c']; cbn; [|done].
    by destruct (bool_decide (refreshInterval c > 0)).
  - unfold stop. crunch_action.
  - unfold updateContext, exec, mbind, Action_bind, log, assign, this, mret,
      Action_ret; cbn.
    destruct (truthy _ || truthy _); cbn;
      (destruct (bool_decide (is_Some (timerRef c))); cbn; [|done]);
      by apply fetchToggles_etag_ext.
  - unfold setContextField, exec, mbind, Action_bind, log, assign, this, mret,
      Action_ret; cbn.
    destruct (bool_decide (f ∈ DEFINED_FIELDS)); cbn;
      (destruct (bool_decide (is_Some (timerRef c))); cbn; [|done]);
      by apply fetchToggles_etag_ext.
  - unfold isEnabled. crunch_action.
  - unfold getVariant. crunch_action.
  - by destruct (bool_decide (is_Some (timerRef c))).
  - reflexivity.
Qed.

(** C7, as the code has it. The revision marker is empty when the
    constructor returns and still empty when the initialization has run. A
    call changes it only by a synchronization to which the transport
    answers with an ok response that is not a 304, and the marker then is
    that response's [ETag] header, or empty when the response has none.
    Such a response whose body carries toggles always sets the marker this
    way, whatever the marker was. *)
Theorem revision_marker_lifecycle :
  (forall cfg c, constructor cfg = Normal c -> etag c = EmptyString)
  /\ (forall cfg random c,
        new_UnleashClient cfg random = Normal c -> etag c = EmptyString)
  /\ (forall call c,
        etag (step call c) <> etag c ->
        exists outcome r,
          sync_outcome call c = Some outcome /\ fetch c = true
          /\ fresh outcome = Some r
          /\ etag (step call c) = default EmptyString (ETag r))
  /\ (forall c r T,
        fetch c = true -> fresh (Responded r) = Some r -> body r = BodyToggles T ->
        etag (exec (fetchToggles (Responded r)) c) = default EmptyString (ETag r)).
Proof.
  split; [apply constructor_etag|].
  split; [|split].
  - intros cfg random c. unfold new_UnleashClient.
    destruct (constructor cfg) as [c0|e] eqn:Hc; [|done].
    intros [= <-]. rewrite ready_etag. by eapply constructor_etag.
  - intros call c. rewrite step_etag.
    destruct (sync_outcome call c) as [outcome|]; [|done].
    rewrite fetchToggles_etag.
    destruct (fetch c); [|done].
    destruct (fresh outcome) as [r|] eqn:Hfresh; [|done].
    intros _. by exists outcome, r.
  - intros c r T Hf Hfresh _. by rewrite fetchToggles_etag, Hf, Hfresh.
Qed.

Lemma revision_marker_lifecycle_witness :
  new_UnleashClient sampleConfig 424242 = Normal sampleClient
  /\ etag sampleClient = EmptyString.
Proof.
  assert (Hc : new_UnleashClient sampleConfig 424242 = Normal sampleClient)
    by reflexivity.
  split; [exact Hc|].
  apply (proj1 (proj2 revision_marker_lifecycle) sampleConfig 424242 sampleClient Hc).
Defined.

(** C7, as the specification states it, fails: a marker that a synchronization has set
    goes back to empty with a later ok response without [ETag] header. *)
Lemma revision_marker_rolled_back :
  let c1 := exec (fetchToggles (Responded (okResponse (Some "v1") [flagA]))) sampleClient in
  let c2 := exec (fetchToggles (Responded (okResponse None [flagA; flagB]))) c1 in
  etag c1 = "v1" /\ etag c1 <> EmptyString /\ etag c2 = EmptyString.
Proof. vm_compute. repeat split; [discriminate]. Qed.

(** ** The [ready] event *)

Lemma occurrences_app (kind : Event -> bool) (l l' : list Event) :
  occurrences kind (l ++ l') = (occurrences kind l + occurrences kind l')%nat.
Proof. unfold occurrences. by rewrite filter_app, length_app. Qed.



Lemma fetchToggles_bootstrap (outcome : FetchOutcome) (c : UnleashClient) :
  bootstrap (fetchToggles outcome c).2 = bootstrap c.
Proof. fetchToggles_cases c outcome. Qed.









Lemma sessionId_is_not_storeKey : "sessionId" <> storeKey.
Proof. discriminate. Qed.

(** The initialization on a storage port that serves its calls. *)
Lemma ready_served (random : Z) (c : UnleashClient) :
  serves (storage c) ->
  let c' := (ready random c).2 in
  let cached := stored_toggles (cells (storage c) !! storeKey) in
  match bootstrap c with
  | Some b =>
      if bootstrapOverride c || bool_decide (length cached = 0%nat) then
        toggles c' = Toggles b
        /\ cells (storage c') !! storeKey = Some (StoredToggles b)
        /\ save_call storeKey (StoredToggles b) ∈ journal (storage c')
        /\ emitted c' = emitted c ++ [READY; INIT]
      else toggles c' = Toggles cached /\ emitted c' = emitted c ++ [INIT]
  | None => toggles c' = Toggles cached /\ emitted c' = emitted c ++ [INIT]
  end.
Proof.
  intros Hs. unfold serves in Hs.
  unfold ready, init, resolveSessionId. unfold_actions; cbn.
  destruct (faults (storage c)) as [|f1 [|f2 [|f3 [|f4 fs]]]] eqn:Hf;
    repeat match goal with
      | H : Forall _ (_ :: _) |- _ => apply Forall_cons in H as [? H]; subst
      end; cbn;
    destruct (truthy (obj_read "sessionId" (context c))); cbn; rewrite ?Hf; cbn;
    try (destruct (truthy (stored_value (cells (storage c) !! "sessionId")));
         cbn; rewrite ?Hf; cbn);
    rewrite ?(lookup_insert_ne _ _ _ _ sessionId_is_not_storeKey).
  all: destruct (bootstrap c) as [b|]; cbn; [|done].
  all: destruct (bootstrapOverride c || bool_decide (length _ = 0%nat)); cbn;
    rewrite ?Hf; cbn; [|done].
  all: rewrite lookup_insert_eq, <- (app_assoc (emitted c)).
  all: split; [done|]; split; [done|]; split; [|done].
  all: apply elem_of_app; right; left.
Qed.







(** With a bootstrap, no synchronization publishes [ready]. *)
Lemma fetchToggles_bootstrap_emitted (outcome : FetchOutcome) (c : UnleashClient) :
  is_Some (bootstrap c) ->
  exists new,
    emitted (fetchToggles outcome c).2 = emitted c ++ new
    /\ occurrences is_READY new = 0%nat.
Proof.
  intros [b Hb].
  unfold_actions; cbn.
  destruct (fetch c); cbn; [|exists []; by rewrite app_nil_r].
  destruct outcome as [e|r]; cbn; [by eexists|].
  destruct (ok r), (bool_decide (status r = 304)); cbn;
    try (exists []; by rewrite app_nil_r); try by eexists.
  destruct (body r); cbn; try by eexists.
  all: destruct (head (faults (storage c))) as [[e|]|]; cbn; rewrite ?Hb; cbn;
    rewrite <- ?app_assoc; by eexists.
Qed.


(** ** How a call is made of field updates *)

(** A relation between the states before and after that holds across every
    field update a call can make, and across a synchronization, holds
    across every call. *)
Lemma step_decomposes (R : UnleashClient -> UnleashClient -> Prop) :
  (forall c, R c c) ->
  (forall a b c, R a b -> R b c -> R a c) ->
  (forall o c, R c (fetchToggles o c).2) ->
  (forall c m, R c (set_metrics m c)) ->
  (forall c d, R c (set_console (console c ++ [d]) c)) ->
  (forall c t, R c (set_timerRef t c)) ->
  (forall c ev, R c (set_emitted (emitted c ++ [IMPRESSION ev]) c)) ->
  (forall c e, R c (set_emitted (emitted c ++ [ERROR (Raw e)]) c)) ->
  (forall c p,
     R c (set_context
            (spread (JObject p)
               [("environment", obj_read "environment" (context c));
                ("appName", obj_read "appName" (context c))]) c)) ->
  (forall c f v,
     R c (set_context
            (obj_set f (JString v) (spread (JObject (context c)) [])) c)) ->
  (forall c f v,
     R c (set_context
            (obj_set "properties"
               (JObject (obj_set f (JString v)
                           (spread (obj_read "properties" (context c)) [])))
               (spread (JObject (context c)) [])) c)) ->
  forall call c, R c (step call c).
Proof.
  intros Hrefl Htrans Hsync Hmet Hcon Htim Himp Herr Hupd Hdef Hprop call c.
  destruct call as [o h| |p o|f v o|n|n|o|err]; cbn.
  - unfold start, exec, mbind, Action_bind, log, assign, this, mret, Action_ret; cbn.
    destruct (bool_decide (is_Some (timerRef c))); cbn; [apply Hcon|].
    pose proof (Hsync o (set_metrics (metrics_set_started true (metrics c)) c)) as H1.
    destruct (fetchToggles o _) as [[[]|e] c']; cbn in *.
    + destruct (bool_decide (refreshInterval c > 0)); cbn.
      * eapply Htrans; [apply Hmet|]. eapply Htrans; [exact H1|]. apply Htim.
      * eapply Htrans; [apply Hmet|]. exact H1.
    + eapply Htrans; [apply Hmet|]. exact H1.
  - unfold stop, exec, mbind, Action_bind, assign, this, mret, Action_ret; cbn.
    destruct (bool_decide (is_Some (timerRef c))); cbn; [|apply Hmet].
    eapply Htrans; [apply Htim|]. apply (Hmet (set_timerRef None c)).
  - unfold updateContext, exec, mbind, Action_bind, log, assign, this, mret,
      Action_ret; cbn.
    destruct (truthy _ || truthy _); cbn;
      destruct (bool_decide (is_Some (timerRef c))); cbn.
    + eapply Htrans; [apply Hcon|]. eapply Htrans; [|apply Hsync].
      apply (Hupd (set_console _ c)).
    + eapply Htrans; [apply Hcon|]. apply (Hupd (set_console _ c)).
    + eapply Htrans; [|apply Hsync]. apply Hupd.
    + apply Hupd.
  - unfold setContextField, exec, mbind, Action_bind, log, assign, this, mret,
      Action_ret; cbn.
    destruct (bool_decide (f ∈ DEFINED_FIELDS)); cbn;
      destruct (bool_decide (is_Some (timerRef c))); cbn.
    + eapply Htrans; [|apply Hsync]. apply Hdef.
    + apply Hdef.
    + eapply Htrans; [|apply Hsync]. apply Hprop.
    + apply Hprop.
  - unfold isEnabled, exec, mbind, Action_bind, emit, assign, this, throw, mret,
      Action_ret; cbn.
    destruct (toggles c) as [l|nothing]; cbn; [|apply Hrefl].
    destruct (find_toggle n l) as [t|]; cbn;
      [destruct (IToggle.impressionData t); cbn|]; try apply Hmet.
    eapply Htrans; [apply Hmet|]. apply (Himp (set_metrics _ c)).
  - unfold getVariant, exec, mbind, Action_bind, emit, assign, this, throw, mret,
      Action_ret; cbn.
    destruct (toggles c) as [l|nothing]; cbn; [|apply Hrefl].
    destruct (find_toggle n l) as [t|]; cbn;
      [destruct (IToggle.impressionData t); cbn|]; try apply Hmet.
    eapply Htrans; [apply Hmet|]. apply (Himp (set_metrics _ c)).
  - destruct (bool_decide (is_Some (timerRef c))); [apply Hsync | apply Hrefl].
  - apply Herr.
Qed.

Lemma run_decomposes (R : UnleashClient -> UnleashClient -> Prop) :
  (forall c, R c c) ->
  (forall a b c, R a b -> R b c -> R a c) ->
  (forall call c, R c (step call c)) ->
  forall calls c, R c (run calls c).
Proof.
  intros Hrefl Htrans Hstep calls.
  induction calls as [|call calls IH]; intros c; cbn; [apply Hrefl|].
  eapply Htrans; [apply Hstep|]. apply IH.
Qed.

(** With a bootstrap, no call publishes [ready]. *)
Lemma run_bootstrap_READY (calls : list Call) (c : UnleashClient) :
  is_Some (bootstrap c) ->
  occurrences is_READY (emitted (run calls c)) = occurrences is_READY (emitted c).
Proof.
  set (R := fun c c' : UnleashClient =>
              bootstrap c' = bootstrap c
              /\ (is_Some (bootstrap c) ->
                  occurrences is_READY (emitted c')
                  = occurrences is_READY (emitted c))).
  assert (Htrans : forall a b d, R a b -> R b d -> R a d).
  { intros a b d [Hb1 H1] [Hb2 H2]. split; [congruence|].
    intros Hs. rewrite H2, H1; [done..|]. by rewrite Hb1. }
  assert (Hemit : forall c ev, is_READY ev = false ->
                    R c (set_emitted (emitted c ++ [ev]) c)).
  { intros d ev Hev. split; [done|]. intros _. unfold occurrences. cbn.
    rewrite filter_app, length_app. cbn. rewrite Hev.
    case_decide; [done|]. cbn. lia. }
  assert (Hrun : R c (run calls c)); [|intros Hb; by apply Hrun].
  apply (run_decomposes R); [done | exact Htrans |].
  apply (step_decomposes R); try done.
  - intros o d. split; [apply fetchToggles_bootstrap|].
    intros Hb. destruct (fetchToggles_bootstrap_emitted o d Hb) as (new & -> & Hz).
    rewrite occurrences_app. lia.
  - intros d ev. by apply Hemit.
  - intros d e. by apply Hemit.
Qed.




(** C9. A bootstrap that is given but not applied leaves the client
    without [ready] for good. With the override flag off and a cached list
    found, the initialization keeps the cached list and publishes no
    [ready]; no bootstrap was applied, yet the first synchronization that
    receives fresh toggles replaces the snapshot and publishes [update]
    without [ready]; and whatever calls, timer firings and reports of the
    metrics collector follow, [ready] is never published. *)
Theorem unapplied_bootstrap_never_ready :
  let cfg := bootstrapConfig cachedStorage (Some [flagA]) (Some false) in
  let c0 := client_of cfg 7 in
  let c1 := exec (fetchToggles (Responded (okResponse (Some "v1") [flagA; flagB]))) c0 in
  new_UnleashClient cfg 7 = Normal c0
  /\ toggles c0 = Toggles [flagC]
  /\ emitted c0 = [INIT]
  /\ toggles c1 = Toggles [flagA; flagB]
  /\ emitted c1 = [INIT; UPDATE]
  /\ occurrences is_READY (emitted c1) = 0%nat
  /\ forall calls, occurrences is_READY (emitted (run calls c0)) = 0%nat.
Proof.
  cbv zeta. do 6 (split; [vm_compute; reflexivity|]).
  intros calls. rewrite run_bootstrap_READY; [reflexivity|].
  by exists [flagA].
Qed.
(** * Further properties *)

(** ** What no call changes *)

Lemma fetchToggles_config (o : FetchOutcome) (c : UnleashClient) :
  let c' := (fetchToggles o c).2 in
  url c' = url c /\ clientKey c' = clientKey c /\ headerName c' = headerName c
  /\ customHeaders c' = customHeaders c /\ refreshInterval c' = refreshInterval c
  /\ fetch c' = fetch c /\ bootstrap c' = bootstrap c
  /\ bootstrapOverride c' = bootstrapOverride c.
Proof.
  unfold_actions; cbn.
  destruct (fetch c) eqn:Hf; [|done].
  destruct o as [e|r]; cbn; [done|].
  destruct (ok r), (bool_decide (status r = 304)); cbn; try done.
  destruct (body r); cbn; try done.
  all: destruct (head (faults (storage c))) as [[e|]|]; cbn; try done;
    destruct (bootstrap c) eqn:Hb, (readyEventEmitted c); cbn; done.
Qed.

(** X1. The fields the constructor takes from the configuration (URL,
    client key, header name, custom headers, refresh interval, transport,
    bootstrap and override flag) are the same after any calls and timer
    firings: in particular a synchronization adds the context to a copy of
    the URL, never to the URL the client keeps. *)
Theorem configuration_is_constant (calls : list Call) (c : UnleashClient) :
  let c' := run calls c in
  url c' = url c /\ clientKey c' = clientKey c /\ headerName c' = headerName c
  /\ customHeaders c' = customHeaders c /\ refreshInterval c' = refreshInterval c
  /\ fetch c' = fetch c /\ bootstrap c' = bootstrap c
  /\ bootstrapOverride c' = bootstrapOverride c.
Proof.
  cbn.
  set (R := fun c c' : UnleashClient =>
              url c' = url c /\ clientKey c' = clientKey c
              /\ headerName c' = headerName c
              /\ customHeaders c' = customHeaders c
              /\ refreshInterval c' = refreshInterval c
              /\ fetch c' = fetch c /\ bootstrap c' = bootstrap c
              /\ bootstrapOverride c' = bootstrapOverride c).
  assert (Htrans : forall a b d, R a b -> R b d -> R a d).
  { intros a b d (?&?&?&?&?&?&?&?) (?&?&?&?&?&?&?&?).
    unfold R. repeat split; congruence. }
  apply (run_decomposes R); [done | exact Htrans |].
  apply (step_decomposes R); try done.
  intros o d. apply fetchToggles_config.
Qed.

(** The keys of an object after an assignment. *)
Lemma obj_set_keys {A : Type} (k : string) (v : A) (o : list (string * A)) :
  (obj_set k v o).*1 = if decide (k ∈ o.*1) then o.*1 else o.*1 ++ [k].
Proof.
  induction o as [|[k' v'] o IH]; cbn.
  - rewrite decide_False; [done|]. apply not_elem_of_nil.
  - destruct (decide (k' = k)) as [->|Hne]; cbn.
    + rewrite decide_True; [done|]. left.
    + rewrite IH. destruct (decide (k ∈ o.*1)) as [Hin|Hnin].
      * rewrite decide_True; [done|]. by right.
      * rewrite decide_False; [done|].
        intros [?|?]%elem_of_cons; congruence.
Qed.

Lemma obj_set_NoDup {A : Type} (k : string) (v : A) (o : list (string * A)) :
  NoDup o.*1 -> NoDup (obj_set k v o).*1.
Proof.
  intros Hnd. rewrite obj_set_keys. case_decide as Hk; [done|].
  apply NoDup_app. split; [done|]. split.
  - intros x Hx [->|Hnil]%elem_of_cons; [done|]. by apply elem_of_nil in Hnil.
  - apply NoDup_singleton.
Qed.

Lemma fold_set_NoDup {A : Type} (l o : list (string * A)) :
  NoDup o.*1 -> NoDup (fold_left (fun t e => obj_set e.1 e.2 t) l o).*1.
Proof.
  revert o. induction l as [|e l IH]; intros o Hnd; cbn; [done|].
  apply IH. by apply obj_set_NoDup.
Qed.

Lemma spread_NoDup (source : JSValue) (target : JSObject) :
  NoDup target.*1 -> NoDup (spread source target).*1.
Proof. apply fold_set_NoDup. Qed.

Lemma ready_context_NoDup (random : Z) (c : UnleashClient) :
  NoDup (context c).*1 -> NoDup (context (ready random c).2).*1.
Proof.
  intros Hnd.
  assert (Hs : forall sid,
             NoDup (spread (JObject (context c)) [("sessionId", sid)]).*1).
  { intros sid. apply spread_NoDup. apply NoDup_singleton. }
  unfold spread in Hs. cbn in Hs.
  unfold ready, init, resolveSessionId. unfold_actions; cbn.
  repeat (case_match; cbn in *; simplify_eq; try done).
Qed.

(** X2. The context of a client is a well-formed object at all times: from
    the construction on, through any calls and timer firings, no key
    occurs twice in it. *)
Theorem context_keys_are_distinct
    (cfg : IConfig) (random : Z) (c0 : UnleashClient) (calls : list Call) :
  new_UnleashClient cfg random = Normal c0 ->
  NoDup (context (run calls c0)).*1.
Proof.
  unfold new_UnleashClient.
  destruct (constructor cfg) as [c|e] eqn:Hc; [|done].
  intros [= <-].
  assert (Hnd : NoDup (context c).*1).
  { revert Hc. unfold constructor. repeat case_match; intros [= <-]; cbn.
    all: apply spread_NoDup; cbn.
    all: apply (bool_decide_unpack _); vm_compute; exact I. }
  apply (ready_context_NoDup random) in Hnd. unfold exec.
  revert Hnd.
  set (R := fun c c' : UnleashClient =>
              NoDup (context c).*1 -> NoDup (context c').*1).
  assert (Htrans : forall a b d, R a b -> R b d -> R a d).
  { intros a b d Hab Hbd Ha. by apply Hbd, Hab. }
  apply (run_decomposes R); [by unfold R | exact Htrans |].
  apply (step_decomposes R); try (by unfold R).
  - intros o d. unfold R. pose proof (fetchToggles_context o d) as Hctx.
    unfold exec in Hctx. by rewrite Hctx.
  - intros d p _. cbn. apply fold_set_NoDup. cbn.
    apply (bool_decide_unpack _). vm_compute. exact I.
  - intros d f v _. cbn. apply obj_set_NoDup, fold_set_NoDup, NoDup_nil_2.
  - intros d f v _. cbn. apply obj_set_NoDup, fold_set_NoDup, NoDup_nil_2.
Qed.

Lemma context_keys_are_distinct_witness :
  new_UnleashClient sampleConfig 424242 = Normal sampleClient
  /\ NoDup (context
              (run [call_setContextField "userId" "7" (Rejected (Failure "offline"));
                    call_setContextField "plan" "free" (Rejected (Failure "offline"))]
                 sampleClient)).*1.
Proof.
  split; [reflexivity|].
  apply (context_keys_are_distinct sampleConfig 424242 sampleClient). reflexivity.
Defined.

(** ** Evaluation of a toggle of the snapshot *)

(** The lookup finds the first toggle that carries the name. *)
Lemma find_toggle_first (name : string) (before after : list IToggle) (t : IToggle) :
  (forall t', t' ∈ before -> IToggle.name t' <> name) ->
  IToggle.name t = name ->
  find_toggle name (before ++ t :: after) = Some t.
Proof.
  intros Hbefore Ht. unfold find_toggle.
  induction before as [|t' before IH]; cbn.
  - by rewrite bool_decide_eq_true_2.
  - rewrite bool_decide_eq_false_2 by (apply Hbefore; left).
    apply IH. intros t'' Hin. apply Hbefore. by right.
Qed.

(** X3. [isEnabled] on a name the snapshot holds answers with the [enabled]
    flag of the first toggle of that name, records the count
    [(name, enabled)], and publishes one impression event (kind
    [isEnabled], the current context, no variant name) if that toggle has
    [impressionData], none otherwise; it changes nothing else. *)
Theorem isEnabled_of_present_toggle
    (c : UnleashClient) (name : string) (before after : list IToggle) (t : IToggle) :
  toggles c = Toggles (before ++ t :: after) ->
  (forall t', t' ∈ before -> IToggle.name t' <> name) ->
  IToggle.name t = name ->
  let counted := set_metrics (metrics_count name (IToggle.enabled t) (metrics c)) c in
  isEnabled name c
  = (Normal (IToggle.enabled t),
     if IToggle.impressionData t then
       set_emitted
         (emitted c
          ++ [IMPRESSION
                {| imp_context := context c; imp_enabled := IToggle.enabled t;
                   imp_toggleName := name; imp_evaluationKind := IS_ENABLED;
                   imp_variantName := None |}])
         counted
     else counted).
Proof.
  intros Hl Hbefore Ht. cbn.
  unfold isEnabled, mbind, Action_bind, emit, assign, this, mret, Action_ret.
  cbn. rewrite Hl, (find_toggle_first name before after t Hbefore Ht).
  by destruct (IToggle.impressionData t).
Qed.

Lemma isEnabled_of_present_toggle_witness :
  toggles syncedClient = Toggles ([] ++ flagA :: [flagB])
  /\ (isEnabled "flagA" syncedClient).1 = Normal true
  /\ occurrences is_IMPRESSION (emitted (exec (isEnabled "flagA") syncedClient))
     = S (occurrences is_IMPRESSION (emitted syncedClient)).
Proof.
  split; [reflexivity|].
  rewrite (isEnabled_of_present_toggle syncedClient "flagA" [] [flagB] flagA
             eq_refl
             ltac:(intros t' Hin; by apply elem_of_nil in Hin) eq_refl).
  split; reflexivity.
Defined.

(** X4. [getVariant] on a name the snapshot holds answers with the variant
    of the first toggle of that name and records the count [(name, true)],
    also when that toggle is disabled; it publishes one impression event
    (kind [getVariant], the toggle's [enabled] flag, the variant's name) if
    the toggle has [impressionData], none otherwise; it changes nothing
    else. *)
Theorem getVariant_of_present_toggle
    (c : UnleashClient) (name : string) (before after : list IToggle) (t : IToggle) :
  toggles c = Toggles (before ++ t :: after) ->
  (forall t', t' ∈ before -> IToggle.name t' <> name) ->
  IToggle.name t = name ->
  let counted := set_metrics (metrics_count name true (metrics c)) c in
  getVariant name c
  = (Normal (IToggle.variant t),
     if IToggle.impressionData t then
       set_emitted
         (emitted c
          ++ [IMPRESSION
                {| imp_context := context c; imp_enabled := IToggle.enabled t;
                   imp_toggleName := name; imp_evaluationKind := GET_VARIANT;
                   imp_variantName := Some (IVariant.name (IToggle.variant t)) |}])
         counted
     else counted).
Proof.
  intros Hl Hbefore Ht. cbn.
  unfold getVariant, mbind, Action_bind, emit, assign, this, mret, Action_ret.
  cbn. rewrite Hl, (find_toggle_first name before after t Hbefore Ht).
  by destruct (IToggle.impressionData t).
Qed.

Lemma getVariant_of_present_toggle_witness :
  toggles syncedClient = Toggles ([flagA] ++ flagB :: [])
  /\ IToggle.enabled flagB = false
  /\ (getVariant "flagB" syncedClient).1 = Normal defaultVariant
  /\ metrics_counts (metrics (exec (getVariant "flagB") syncedClient))
     = metrics_counts (metrics syncedClient) ++ [("flagB", true)].
Proof.
  split; [reflexivity|]. split; [reflexivity|].
  assert (Hbefore : forall t', t' ∈ [flagA] -> IToggle.name t' <> "flagB").
  { intros t' Hin. apply elem_of_cons in Hin as [->|Hin]; [discriminate|].
    by apply elem_of_nil in Hin. }
  unfold exec.
  rewrite (getVariant_of_present_toggle syncedClient "flagB" [flagA] [] flagB
             eq_refl Hbefore eq_refl).
  split; reflexivity.
Defined.

Lemma find_toggle_is_Some (name : string) (l : list IToggle) :
  is_Some (find_toggle name l) <-> name ∈ IToggle.name <$> l.
Proof.
  unfold find_toggle. induction l as [|t l IH]; cbn.
  - split; [by intros [? ?] | by intros ?%elem_of_nil].
  - case_bool_decide as Hn.
    + split; [intros _; subst; left | by eexists].
    + rewrite IH. split; [by right|].
      intros [?|?]%elem_of_cons; [congruence | done].
Qed.

(** X5. An evaluation is a read of the client's state but for its two
    records. Where the snapshot is a toggle list, [isEnabled] and
    [getVariant] complete normally, whatever the name, and add exactly one
    count to the metrics ([isEnabled] with the answer it gives,
    [getVariant] with whether the snapshot holds the name). Where the
    snapshot is [undefined] or [null] (what a synchronization leaves that
    received a body without a toggle list), they throw a [TypeError] on the
    lookup, before they record anything. In either case they add at most
    one event, an impression, and the snapshot, the context, the revision
    marker, the storage, the timer, the console and the requests sent stay
    as they are. *)
Theorem evaluation_only_records (c : UnleashClient) (name : string) :
  match toggles c with
  | Toggles l =>
      (exists b,
         (isEnabled name c).1 = Normal b
         /\ metrics_counts (metrics (exec (isEnabled name) c))
            = metrics_counts (metrics c) ++ [(name, b)])
      /\ (exists v,
            (getVariant name c).1 = Normal v
            /\ metrics_counts (metrics (exec (getVariant name) c))
               = metrics_counts (metrics c)
                 ++ [(name, bool_decide (name ∈ IToggle.name <$> l))])
  | NoToggles n =>
      isEnabled name c = (Throw (cannot_read n "find"), c)
      /\ getVariant name c = (Throw (cannot_read n "find"), c)
  end
  /\ forall c',
       c' = exec (isEnabled name) c \/ c' = exec (getVariant name) c ->
       toggles c' = toggles c /\ context c' = context c /\ etag c' = etag c
       /\ storage c' = storage c /\ timerRef c' = timerRef c
       /\ requests c' = requests c /\ console c' = console c
       /\ (emitted c' = emitted c
           \/ exists ev, emitted c' = emitted c ++ [IMPRESSION ev]).
Proof.
  unfold isEnabled, getVariant, exec, mbind, Action_bind, emit, assign, this,
    throw, mret, Action_ret; cbn.
  destruct (toggles c) as [l|n] eqn:Hl; cbn.
  2: { split; [done|]. intros c' [-> | ->]; cbn; repeat (split; [done|]); eauto. }
  pose proof (find_toggle_is_Some name l) as Hfind.
  destruct (find_toggle name l) as [t|]; cbn;
    [rewrite bool_decide_eq_true_2 by (by apply Hfind);
     destruct (IToggle.impressionData t); cbn
    |rewrite bool_decide_eq_false_2 by (by intros [? ?]%Hfind)].
  all: split; [split; by eexists|].
  all: intros c' [-> | ->]; cbn; repeat (split; [done|]); eauto.
Qed.

Lemma evaluation_only_records_witness :
  toggles (exec (isEnabled "flagA") syncedClient) = toggles syncedClient
  /\ etag (exec (getVariant "flagA") syncedClient) = etag syncedClient.
Proof.
  split.
  - apply (proj2 (evaluation_only_records syncedClient "flagA") _
             (or_introl eq_refl)).
  - apply (proj2 (evaluation_only_records syncedClient "flagA") _
             (or_intror eq_refl)).
Defined.

(** ** Starting and stopping *)

(** X6. [start] on a client that is not polling starts the metrics, makes
    one synchronization (one request, if a transport is there) and sets the
    timer exactly when the refresh interval is positive. A second [start]
    while the timer runs only reports on the console: the first timer
    stays, and no request is sent, no event published, nothing stored. *)
Theorem start_registers_one_timer
    (c : UnleashClient) (o1 o2 : FetchOutcome) (h1 h2 : positive) :
  timerRef c = None ->
  let c1 := exec (start o1 h1) c in
  let c2 := exec (start o2 h2) c1 in
  timerRef c1 = (if bool_decide (refreshInterval c > 0) then Some h1 else None)
  /\ metrics_started (metrics c1) = true
  /\ (fetch c = true ->
      requests c1
      = requests c ++ [{| req_url := urlWithQuery c; req_headers := getHeaders c |}])
  /\ (refreshInterval c > 0 ->
      timerRef c2 = Some h1 /\ requests c2 = requests c1
      /\ toggles c2 = toggles c1 /\ etag c2 = etag c1
      /\ emitted c2 = emitted c1 /\ storage c2 = storage c1
      /\ exists d, console c2 = console c1 ++ [d]).
Proof.
  intros Ht. cbn.
  assert (H1 : exec (start o1 h1) c
               = let c' := (fetchToggles o1
                              (set_metrics (metrics_set_started true (metrics c)) c)).2 in
                 if bool_decide (refreshInterval c > 0)
                 then set_timerRef (Some h1) c' else c').
  { unfold start, exec, mbind, Action_bind, log, assign, this, mret, Action_ret.
    cbn. rewrite Ht. cbn.
    pose proof (fetchToggles_completes o1
      (set_metrics (metrics_set_started true (metrics c)) c)) as Hn.
    destruct (fetchToggles o1 _) as [[[]|e] c']; cbn in *; [|done].
    by destruct (bool_decide (refreshInterval c > 0)). }
  cbn in H1. rewrite H1.
  set (cm := set_metrics (metrics_set_started true (metrics c)) c) in *.
  assert (Hfields : timerRef (fetchToggles o1 cm).2 = None
                    /\ metrics_started (metrics (fetchToggles o1 cm).2) = true
                    /\ (fetch c = true ->
                        requests (fetchToggles o1 cm).2
                        = requests c
                          ++ [{| req_url := urlWithQuery c;
                                 req_headers := getHeaders c |}])).
  { split; [|split].
    - revert Ht. subst cm. fetchToggles_cases c o1.
    - subst cm. fetchToggles_cases c o1.
    - intros Hf. apply (fetchToggles_request o1 cm). exact Hf. }
  destruct Hfields as (Htim & Hmet & Hreq).
  split; [|split; [|split]].
  - by destruct (bool_decide (refreshInterval c > 0)).
  - by destruct (bool_decide (refreshInterval c > 0)).
  - intros Hf. destruct (bool_decide (refreshInterval c > 0)); cbn; by apply Hreq.
  - intros Hpos. rewrite (bool_decide_eq_true_2 _ Hpos).
    unfold start, exec, mbind, Action_bind, log, assign, this, mret, Action_ret.
    cbn. repeat (split; [done|]). by eexists.
Qed.

Lemma start_registers_one_timer_witness :
  timerRef sampleClient = None
  /\ refreshInterval sampleClient > 0
  /\ timerRef (exec (start (Rejected (Failure "offline")) 2%positive) pollingClient)
     = Some 1%positive.
Proof.
  split; [reflexivity|]. split; [reflexivity|].
  apply (proj2 (proj2 (proj2 (start_registers_one_timer sampleClient
           (Responded (okResponse (Some "v1") [flagA; flagB]))
           (Rejected (Failure "offline")) 1%positive 2%positive eq_refl)))).
  reflexivity.
Defined.

(** X7. [stop] clears the timer field and stops the metrics, and touches
    nothing else; stopping again changes nothing. After it neither
    [updateContext] nor [setContextField] sends a request. *)
Theorem stop_is_idempotent_and_final (c : UnleashClient) :
  let c' := exec stop c in
  timerRef c' = None
  /\ metrics_started (metrics c') = false
  /\ exec stop c' = c'
  /\ toggles c' = toggles c /\ context c' = context c /\ etag c' = etag c
  /\ storage c' = storage c /\ emitted c' = emitted c /\ requests c' = requests c
  /\ (forall p o, requests (exec (updateContext p o) c') = requests c)
  /\ (forall f v o, requests (exec (setContextField f v o) c') = requests c).
Proof.
  unfold stop, updateContext, setContextField, exec, mbind, Action_bind, log,
    assign, this, mret, Action_ret; cbn.
  destruct (bool_decide (is_Some (timerRef c))) eqn:Ht; cbn.
  - repeat (split; [done|]). split.
    + intros p o. by destruct (truthy _ || truthy _).
    + intros f v o. by destruct (bool_decide (f ∈ DEFINED_FIELDS)).
  - assert (Hnone : timerRef c = None).
    { apply bool_decide_eq_false in Ht. destruct (timerRef c); [|done].
      exfalso. apply Ht. by eexists. }
    rewrite Hnone. cbn. rewrite ?Ht. cbn.
    repeat (split; [done|]). split.
    + intros p o. destruct (truthy _ || truthy _); cbn; by rewrite Ht.
    + intros f v o. destruct (bool_decide (f ∈ DEFINED_FIELDS)); cbn;
        by rewrite Ht.
Qed.

(** ** Context changes while polling *)

(** What [updateContext] leaves, when the timer runs: the state the
    synchronization makes from the client with the new context. *)
Lemma updateContext_polling (p : JSObject) (o : FetchOutcome) (c : UnleashClient) :
  is_Some (timerRef c) ->
  exists c1,
    exec (updateContext p o) c = (fetchToggles o c1).2
    /\ context c1
       = spread (JObject p)
           [("environment", obj_read "environment" (context c));
            ("appName", obj_read "appName" (context c))]
    /\ requests c1 = requests c /\ fetch c1 = fetch c /\ url c1 = url c.
Proof.
  intros Ht.
  unfold updateContext, exec, mbind, Action_bind, log, assign, this, mret,
    Action_ret; cbn.
  destruct (truthy _ || truthy _); cbn; rewrite (bool_decide_eq_true_2 _ Ht);
    by eexists.
Qed.

(** X8. While the timer runs, [updateContext(p)] sends one request at once,
    and its query is that of the new context (the static fields with [p]
    over them): every field of [p] other than [properties] that holds a
    value is in it under its own name. *)
Theorem updateContext_resyncs_with_new_context
    (c : UnleashClient) (p : JSObject) (o : FetchOutcome) (k : string) (v : JSValue) :
  is_Some (timerRef c) -> fetch c = true ->
  NoDup p.*1 -> obj_get k p = Some v -> k <> "properties" ->
  notNullOrUndefined (k, v) = true ->
  exists req,
    requests (exec (updateContext p o) c) = requests c ++ [req]
    /\ searchParams (req_url req)
       = searchParams (url c)
         ++ context_query
              (spread (JObject p)
                 [("environment", obj_read "environment" (context c));
                  ("appName", obj_read "appName" (context c))])
    /\ (k, ToString v) ∈ searchParams (req_url req).
Proof.
  intros Ht Hf Hnd Hk Hprop Hdef.
  destruct (updateContext_polling p o c Ht) as (c1 & -> & Hctx & Hreq & Hf1 & Hu1).
  rewrite <- Hf1 in Hf.
  pose proof (fetchToggles_request o c1 Hf) as Hsent. unfold exec in Hsent.
  rewrite Hsent, Hreq. eexists. split; [reflexivity|].
  rewrite urlWithQuery_spec, Hu1, Hctx. cbn [req_url searchParams].
  split; [reflexivity|].
  apply elem_of_app. right. apply elem_of_context_query. left.
  exists v. split; [|split; [done|split; [|done]]].
  - apply obj_get_Some_elem. by apply spread_object_present.
  - cbn. by rewrite bool_decide_eq_false_2.
Qed.

Lemma updateContext_resyncs_with_new_context_witness :
  is_Some (timerRef pollingClient)
  /\ exists req,
       requests (exec (updateContext [("userId", JString "x")]
                         (Responded notModified)) pollingClient)
       = requests pollingClient ++ [req]
       /\ ("userId", "x") ∈ searchParams (req_url req).
Proof.
  assert (Ht : is_Some (timerRef pollingClient)) by (by eexists).
  split; [exact Ht|].
  destruct (updateContext_resyncs_with_new_context pollingClient
              [("userId", JString "x")] (Responded notModified) "userId" (JString "x")
              Ht eq_refl
              ltac:(apply NoDup_singleton) eq_refl ltac:(discriminate) eq_refl)
    as (req & Hreq & _ & Hin).
  by exists req.
Defined.

(** What [setContextField] leaves: the state with the new context, and the
    synchronization on it when the timer runs. *)
Lemma setContextField_cases (f v : string) (o : FetchOutcome) (c : UnleashClient) :
  let context1 :=
    if bool_decide (f ∈ DEFINED_FIELDS) then
      obj_set f (JString v) (spread (JObject (context c)) [])
    else
      obj_set "properties"
        (JObject (obj_set f (JString v)
                    (spread (obj_read "properties" (context c)) [])))
        (spread (JObject (context c)) []) in
  exec (setContextField f v o) c
  = if bool_decide (is_Some (timerRef c))
    then (fetchToggles o (set_context context1 c)).2
    else set_context context1 c.
Proof.
  unfold setContextField, exec, mbind, Action_bind, assign, this, mret,
    Action_ret; cbn.
  destruct (bool_decide (f ∈ DEFINED_FIELDS)); cbn;
    by destruct (bool_decide (is_Some (timerRef c))).
Qed.

(** X9. [setContextField(f, v)] sets a reserved field ([userId],
    [sessionId], [remoteAddress]) on the context itself and any other
    field inside [properties], where the other properties stay as they
    are; every field of the context itself other than the one set keeps
    its value: the static fields always do, as [appName] and
    [environment] are not reserved and go to [properties]. While the timer runs, one request
    is sent at once and carries the new value, as [f=v] or as
    [properties[f]=v]. *)
Theorem setContextField_sets_one_field
    (c : UnleashClient) (f v : string) (o : FetchOutcome) :
  NoDup (context c).*1 ->
  let c' := exec (setContextField f v o) c in
  (f ∈ DEFINED_FIELDS -> obj_get f (context c') = Some (JString v))
  /\ (f ∉ DEFINED_FIELDS ->
      exists props,
        obj_get "properties" (context c') = Some (JObject props)
        /\ obj_get f props = Some (JString v)
        /\ forall old k,
             obj_get "properties" (context c) = Some (JObject old) ->
             NoDup old.*1 -> k <> f -> obj_get k props = obj_get k old)
  /\ (forall k, k <> "properties" -> k <> f \/ f ∉ DEFINED_FIELDS ->
                obj_get k (context c') = obj_get k (context c))
  /\ (is_Some (timerRef c) -> fetch c = true ->
      exists req,
        requests c' = requests c ++ [req]
        /\ (if bool_decide (f ∈ DEFINED_FIELDS) then (f, v)
            else ("properties[" +:+ f +:+ "]", v)) ∈ searchParams (req_url req)).
Proof.
  intros Hnd. cbn.
  assert (Hctx : forall c1, context (if bool_decide (is_Some (timerRef c))
                                     then (fetchToggles o c1).2 else c1)
                            = context c1).
  { intros c1. destruct (bool_decide (is_Some (timerRef c))); [|done].
    apply (fetchToggles_context o). }
  split; [|split; [|split]].
  - intros Hdef. rewrite setContextField_cases. cbn.
    rewrite Hctx, (bool_decide_eq_true_2 _ Hdef). cbn.
    rewrite obj_get_set. by rewrite decide_True.
  - intros Hdef. rewrite setContextField_cases. cbn.
    rewrite Hctx, (bool_decide_eq_false_2 _ Hdef). cbn.
    eexists. split; [rewrite obj_get_set; by rewrite decide_True|].
    split; [rewrite obj_get_set; by rewrite decide_True|].
    intros old k Hold Hndo Hk. rewrite obj_get_set, decide_False by done.
    unfold obj_read. rewrite Hold. cbn.
    destruct (obj_get k old) as [w|] eqn:Hget.
    + by apply (spread_object_present old []).
    + by rewrite (spread_object_absent old []).
  - intros k Hp Hk. rewrite setContextField_cases. cbv zeta. rewrite Hctx.
    cbn [context set_context].
    assert (Hcopy : obj_get k (spread (JObject (context c)) [])
                    = obj_get k (context c)).
    { destruct (obj_get k (context c)) as [w|] eqn:Hget.
      - by apply spread_object_present.
      - by rewrite spread_object_absent. }
    destruct (bool_decide (f ∈ DEFINED_FIELDS)) eqn:Hdef;
      rewrite obj_get_set, decide_False; try done.
    apply bool_decide_eq_true in Hdef. destruct Hk; congruence.
  - intros Ht Hf. rewrite setContextField_cases. cbv zeta.
    rewrite (bool_decide_eq_true_2 _ Ht).
    match goal with
    | |- context [fetchToggles o ?c1] =>
        pose proof (fetchToggles_request o c1 Hf) as Hsent; unfold exec in Hsent;
        rewrite Hsent
    end.
    eexists. split; [reflexivity|].
    rewrite urlWithQuery_spec. cbn [req_url searchParams context set_context requests].
    apply elem_of_app. right.
    destruct (bool_decide (f ∈ DEFINED_FIELDS)) eqn:Hdef;
      apply elem_of_context_query.
    + left. exists (JString v). split; [|split; [done|split; [|done]]].
      * apply obj_get_Some_elem. rewrite obj_get_set. by rewrite decide_True.
      * apply bool_decide_eq_true in Hdef.
        rewrite bool_decide_eq_false_2; [done|].
        intros ->. revert Hdef. vm_compute.
        intros H. repeat (apply elem_of_cons in H as [H|H]; [discriminate|]).
        by apply elem_of_nil in H.
    + right. eexists _, f, (JString v).
      split; [apply obj_get_Some_elem; rewrite obj_get_set; by rewrite decide_True|].
      split; [done|]. split; [|done].
      cbn. rewrite elem_of_own_entries. apply obj_get_Some_elem.
      rewrite obj_get_set. by rewrite decide_True.
Qed.

Lemma setContextField_sets_one_field_witness :
  NoDup (context pollingClient).*1
  /\ obj_get "appName"
       (context (exec (setContextField "appName" "other" (Responded notModified))
                   pollingClient))
     = Some (JString "web").
Proof.
  assert (Hnd : NoDup (context pollingClient).*1).
  { apply (bool_decide_unpack _). vm_compute. exact I. }
  split; [exact Hnd|].
  rewrite (proj1 (proj2 (proj2 (setContextField_sets_one_field pollingClient
             "appName" "other" (Responded notModified) Hnd)))
             "appName" ltac:(discriminate)); [reflexivity|].
  right. intros H. repeat (apply elem_of_cons in H as [H|H]; [discriminate|]).
  by apply elem_of_nil in H.
Defined.

(** ** The snapshot *)

Lemma fetchToggles_toggles (outcome : FetchOutcome) (c : UnleashClient) :
  toggles (fetchToggles outcome c).2
  = if fetch c then
      match fresh outcome with
      | Some r =>
          match body r with
          | BodyToggles T => Toggles T
          | BodyNoToggles n => NoToggles n
          | _ => toggles c
          end
      | None => toggles c
      end
    else toggles c.
Proof.
  unfold fresh. unfold_actions; cbn.
  destruct (fetch c); [|done].
  destruct outcome as [e|r]; cbn; [done|].
  destruct (ok r), (bool_decide (status r = 304)); cbn; try done.
  destruct (body r); cbn; try done.
  all: destruct (head (faults (storage c))) as [[e|]|]; cbn; try done;
    destruct (bootstrap c), (readyEventEmitted c); done.
Qed.

Lemma fetchToggles_toggles_ext (outcome : FetchOutcome) (c1 c2 : UnleashClient) :
  fetch c1 = fetch c2 -> toggles c1 = toggles c2 ->
  toggles (fetchToggles outcome c1).2 = toggles (fetchToggles outcome c2).2.
Proof. intros Hf Ht. by rewrite !fetchToggles_toggles, Hf, Ht. Qed.

(** A call changes the snapshot only through the synchronization it
    makes. *)
Lemma step_toggles (call : Call) (c : UnleashClient) :
  toggles (step call c)
  = match sync_outcome call c with
    | Some outcome => toggles (fetchToggles outcome c).2
    | None => toggles c
    end.
Proof.
  destruct call as [o h| |p o|f v o|n|n|o|err]; cbn.
  - unfold start, exec, mbind, Action_bind, log, assign, this, mret, Action_ret; cbn.
    destruct (bool_decide (is_Some (timerRef c))); cbn; [done|].
    rewrite <- (fetchToggles_toggles_ext o
      (set_metrics (metrics_set_started true (metrics c)) c) c) by done.
    destruct (fetchToggles o _) as [[[]|e] c']; cbn; [|done].
    by destruct (bool_decide (refreshInterval c > 0)).
  - unfold stop. crunch_action.
  - unfold updateContext, exec, mbind, Action_bind, log, assign, this, mret,
      Action_ret; cbn.
    destruct (truthy _ || truthy _); cbn;
      (destruct (bool_decide (is_Some (timerRef c))); cbn; [|done]);
      by apply fetchToggles_toggles_ext.
  - unfold setContextField, exec, mbind, Action_bind, log, assign, this, mret,
      Action_ret; cbn.
    destruct (bool_decide (f ∈ DEFINED_FIELDS)); cbn;
      (destruct (bool_decide (is_Some (timerRef c))); cbn; [|done]);
      by apply fetchToggles_toggles_ext.
  - unfold isEnabled. crunch_action.
  - unfold getVariant. crunch_action.
  - by destruct (bool_decide (is_Some (timerRef c))).
  - reflexivity.
Qed.

(** X10. The snapshot is replaced as a whole or not at all: a call, a
    timer firing or a report of the metrics collector after which it
    differs has made a synchronization to which the transport answered with
    an ok, non-304 response whose body parses to something other than
    [null], and the snapshot then is what that body holds for toggles: the
    toggle list, or [undefined] or [null] where the body holds no list
    (also when the storage rejects the save that follows). *)
Theorem snapshot_changes_only_by_fresh_sync (call : Call) (c : UnleashClient) :
  toggles (step call c) <> toggles c ->
  exists outcome r,
    sync_outcome call c = Some outcome /\ fetch c = true
    /\ fresh outcome = Some r
    /\ ((exists T, body r = BodyToggles T /\ toggles (step call c) = Toggles T)
        \/ (exists n,
              body r = BodyNoToggles n /\ toggles (step call c) = NoToggles n)).
Proof.
  rewrite step_toggles.
  destruct (sync_outcome call c) as [outcome|]; [|done].
  rewrite fetchToggles_toggles.
  destruct (fetch c); [|done].
  destruct (fresh outcome) as [r|] eqn:Hfresh; [|done].
  destruct (body r) as [e| |T|n] eqn:Hbody; try done.
  all: intros _; exists outcome, r; repeat (split; [done|]); eauto.
Qed.

Lemma snapshot_changes_only_by_fresh_sync_witness :
  toggles (step (timer_fires (Responded (okResponse (Some "v2") [flagC]))) pollingClient)
  <> toggles pollingClient
  /\ exists outcome r,
       sync_outcome (timer_fires (Responded (okResponse (Some "v2") [flagC])))
         pollingClient
       = Some outcome
       /\ fresh outcome = Some r.
Proof.
  assert (Hne : toggles (step (timer_fires (Responded (okResponse (Some "v2") [flagC])))
                           pollingClient)
                <> toggles pollingClient) by (vm_compute; discriminate).
  split; [exact Hne|].
  destruct (snapshot_changes_only_by_fresh_sync _ _ Hne)
    as (outcome & r & Ho & _ & Hfresh & _).
  by exists outcome, r.
Defined.





(** ** Without a transport *)

(** What a call leaves of a client without a request function. *)
Lemma step_no_transport (call : Call) (c : UnleashClient) :
  fetch c = false ->
  let c' := step call c in
  fetch c' = false /\ requests c' = requests c /\ toggles c' = toggles c
  /\ etag c' = etag c /\ storage c' = storage c
  /\ filter (fun ev => is_IMPRESSION ev = false) (emitted c')
     = filter (fun ev => is_IMPRESSION ev = false) (emitted c)
       ++ map (fun e => ERROR (Raw e)) (metrics_reports [call]).
Proof.
  intros Hf. cbv zeta.
  assert (Hrep : metrics_reports [call]
                 = match call with metrics_onError e => [e] | _ => [] end)
    by (by destruct call).
  rewrite Hrep. clear Hrep.
  destruct call as [o h| |p o|f v o|n|n|o|err]; cbn.
  - unfold start, exec, mbind, Action_bind, log, assign, this, mret, Action_ret; cbn.
    destruct (bool_decide (is_Some (timerRef c))); cbn; [by rewrite app_nil_r|].
    rewrite fetchToggles_unavailable by done. cbn.
    destruct (bool_decide (refreshInterval c > 0)); cbn; by rewrite app_nil_r.
  - unfold stop, exec, mbind, Action_bind, log, assign, this, mret, Action_ret; cbn.
    destruct (bool_decide (is_Some (timerRef c))); cbn; by rewrite app_nil_r.
  - unfold updateContext, exec, mbind, Action_bind, log, assign, this, mret,
      Action_ret; cbn.
    destruct (truthy _ || truthy _); cbn;
      (destruct (bool_decide (is_Some (timerRef c))); cbn;
       [rewrite fetchToggles_unavailable by done; cbn|]);
      by rewrite app_nil_r.
  - unfold setContextField, exec, mbind, Action_bind, log, assign, this, mret,
      Action_ret; cbn.
    destruct (bool_decide (f ∈ DEFINED_FIELDS)); cbn;
      (destruct (bool_decide (is_Some (timerRef c))); cbn;
       [rewrite fetchToggles_unavailable by done; cbn|]);
      by rewrite app_nil_r.
  - unfold isEnabled, exec, mbind, Action_bind, emit, assign, this, throw, mret,
      Action_ret; cbn.
    destruct (toggles c) as [l|nothing] eqn:Hl; cbn; [|by rewrite app_nil_r].
    destruct (find_toggle n l) as [t|]; cbn;
      [destruct (IToggle.impressionData t); cbn|];
      rewrite ?filter_app; cbn; rewrite ?app_nil_r; done.
  - unfold getVariant, exec, mbind, Action_bind, emit, assign, this, throw, mret,
      Action_ret; cbn.
    destruct (toggles c) as [l|nothing] eqn:Hl; cbn; [|by rewrite app_nil_r].
    destruct (find_toggle n l) as [t|]; cbn;
      [destruct (IToggle.impressionData t); cbn|];
      rewrite ?filter_app; cbn; rewrite ?app_nil_r; done.
  - destruct (bool_decide (is_Some (timerRef c))); cbn;
      unfold_actions; cbn; rewrite ?Hf; cbn; by rewrite app_nil_r.
  - unfold exec, emit, assign; cbn. by rewrite filter_app.
Qed.

(** X11. A client without a request function never synchronizes: through
    any calls, timer firings and reports of the metrics collector it sends
    no request, and its snapshot, its revision marker and its storage stay
    as they are; the events it publishes are impressions, and the [error]
    events that carry what the metrics collector reports through its
    [onError] callback, one for each report and in their order. *)
Theorem no_transport_no_synchronization (calls : list Call) (c : UnleashClient) :
  fetch c = false ->
  let c' := run calls c in
  requests c' = requests c /\ toggles c' = toggles c /\ etag c' = etag c
  /\ storage c' = storage c
  /\ filter (fun ev => is_IMPRESSION ev = false) (emitted c')
     = filter (fun ev => is_IMPRESSION ev = false) (emitted c)
       ++ map (fun e => ERROR (Raw e)) (metrics_reports calls).
Proof.
  cbn. revert c. induction calls as [|call calls IH]; intros c Hf.
  { cbn. by rewrite app_nil_r. }
  destruct (step_no_transport call c Hf) as (Hf1 & Hr1 & Ht1 & He1 & Hs1 & Hem1).
  destruct (IH (step call c) Hf1) as (Hr & Ht & He & Hs & Hem).
  cbn [run fold_left] in *. unfold run in *.
  rewrite Hr, Ht, He, Hs, Hem, Hr1, Ht1, He1, Hs1, Hem1.
  repeat (split; [done|]).
  rewrite <- app_assoc, <- map_app. f_equal. f_equal.
  unfold metrics_reports. cbn. by destruct call.
Qed.

Lemma no_transport_no_synchronization_witness :
  fetch noFetchClient = false
  /\ toggles noFetchClient = Toggles [flagC]
  /\ toggles
       (run [call_start (Responded (okResponse (Some "v1") [flagA])) 1%positive;
             metrics_onError (TypeError "this.fetch is not a function");
             timer_fires (Responded (okResponse (Some "v2") [flagA; flagB]));
             call_updateContext [("userId", JString "x")] (Rejected (Failure "offline"))]
          noFetchClient)
     = Toggles [flagC].
Proof.
  split; [reflexivity|]. split; [reflexivity|].
  rewrite (proj1 (proj2 (no_transport_no_synchronization
             [call_start (Responded (okResponse (Some "v1") [flagA])) 1%positive;
              metrics_onError (TypeError "this.fetch is not a function");
              timer_fires (Responded (okResponse (Some "v2") [flagA; flagB]));
              call_updateContext [("userId", JString "x")] (Rejected (Failure "offline"))]
             noFetchClient eq_refl))).
  reflexivity.
Defined.

(** ** Request headers *)

Lemma defined_entries_keys (o : JSObject) (k : string) :
  obj_get k o = None ->
  k ∉ (filter (fun e => notNullOrUndefined e = true) (own_entries o)).*1.
Proof.
  intros Hk Hin. apply obj_get_None in Hk. apply Hk.
  apply list_elem_of_fmap in Hin as [e [-> He]].
  apply list_elem_of_filter in He as [_ He].
  rewrite elem_of_own_entries in He.
  apply list_elem_of_fmap. by exists e.
Qed.

(** X12. The headers of a request: a custom header that holds a value
    overrides whatever the client would send under that name, one that
    holds [null] or [undefined] is left out; where the custom headers do
    not name it, [If-None-Match] carries the revision marker, and the
    authorization header (if its name is none of the three fixed ones)
    carries the client key. *)
Theorem custom_headers_override_defaults (c : UnleashClient) :
  (forall k v,
     NoDup (customHeaders c).*1 -> (k, v) ∈ customHeaders c ->
     notNullOrUndefined (k, v) = true ->
     obj_get k (getHeaders c) = Some v)
  /\ (obj_get "If-None-Match" (customHeaders c) = None ->
      obj_get "If-None-Match" (getHeaders c) = Some (JString (etag c)))
  /\ (obj_get (headerName c) (customHeaders c) = None ->
      headerName c ∉ ["Accept"; "Content-Type"; "If-None-Match"] ->
      obj_get (headerName c) (getHeaders c) = Some (JString (clientKey c)))
  /\ (forall k,
        (forall v, (k, v) ∈ customHeaders c -> notNullOrUndefined (k, v) = false) ->
        k ∉ [headerName c; "Accept"; "Content-Type"; "If-None-Match"] ->
        obj_get k (getHeaders c) = None).
Proof.
  unfold getHeaders. cbn [Object_entries].
  split; [|split; [|split]].
  - intros k v Hnd Hin Hdef. apply obj_get_fold_set_elem.
    + apply (sublist_NoDup _ (own_entries (customHeaders c)).*1).
      * by rewrite own_entries_perm.
      * apply fmap_sublist, sublist_filter.
    + apply list_elem_of_filter. split; [done|]. by rewrite elem_of_own_entries.
  - intros Hk. rewrite obj_get_fold_set_other by (by apply defined_entries_keys).
    rewrite obj_get_set. by rewrite decide_True.
  - intros Hk Hfixed.
    rewrite obj_get_fold_set_other by (by apply defined_entries_keys).
    rewrite !obj_get_set.
    repeat case_decide; try done; exfalso; apply Hfixed;
      match goal with H : _ = headerName c |- _ => rewrite <- H end; set_solver.
  - intros k Hnull Hfixed. rewrite obj_get_fold_set_other.
    + rewrite !obj_get_set.
      repeat case_decide; try done; exfalso; apply Hfixed; subst; set_solver.
    + intros Hin. apply list_elem_of_fmap in Hin as [[k' v] [-> He]].
      apply list_elem_of_filter in He as [Hdef He].
      rewrite elem_of_own_entries in He. cbn in *.
      rewrite (Hnull v He) in Hdef. discriminate.
Qed.

Lemma custom_headers_override_defaults_witness :
  NoDup (customHeaders customHeadersClient).*1
  /\ obj_get "If-None-Match" (getHeaders customHeadersClient)
     = Some (JString "always")
  /\ obj_get "X-Key" (getHeaders customHeadersClient) = Some (JString "12").
Proof.
  assert (Hnd : NoDup (customHeaders customHeadersClient).*1).
  { apply (bool_decide_unpack _). vm_compute. exact I. }
  split; [exact Hnd|]. split.
  - apply (proj1 (custom_headers_override_defaults customHeadersClient)
             "If-None-Match" (JString "always") Hnd); [|reflexivity].
    vm_compute. right. left.
  - apply (proj1 (proj2 (proj2 (custom_headers_override_defaults customHeadersClient))));
      [reflexivity|].
    vm_compute. intros H.
    repeat (apply elem_of_cons in H as [H|H]; [discriminate|]).
    by apply elem_of_nil in H.
Defined.

(** X13. The conditional request: after a synchronization that received
    an ok, non-304 response, the next synchronization sends that
    response's [ETag] (empty if it had none) as [If-None-Match], unless the
    custom headers set that header themselves. *)
Theorem next_request_carries_revision
    (c : UnleashClient) (r : Response) (o2 : FetchOutcome) :
  fetch c = true -> fresh (Responded r) = Some r ->
  obj_get "If-None-Match" (customHeaders c) = None ->
  let c1 := exec (fetchToggles (Responded r)) c in
  exists req,
    requests (exec (fetchToggles o2) c1) = requests c1 ++ [req]
    /\ obj_get "If-None-Match" (req_headers req)
       = Some (JString (default EmptyString (ETag r))).
Proof.
  intros Hf Hfresh Hcustom. cbn.
  set (c1 := exec (fetchToggles (Responded r)) c).
  destruct (fetchToggles_config (Responded r) c)
    as (_ & _ & _ & Hc1 & _ & Hf1 & _).
  fold (exec (fetchToggles (Responded r)) c) in Hc1, Hf1. fold c1 in Hc1, Hf1.
  rewrite Hf in Hf1.
  rewrite (fetchToggles_request o2 c1 Hf1). eexists. split; [reflexivity|].
  cbn [req_headers].
  assert (He : etag c1 = default EmptyString (ETag r)).
  { subst c1. by rewrite fetchToggles_etag, Hf, Hfresh. }
  rewrite <- He. unfold getHeaders. cbn [Object_entries].
  rewrite obj_get_fold_set_other
    by (apply defined_entries_keys; by rewrite Hc1).
  rewrite obj_get_set. by rewrite decide_True.
Qed.

Lemma next_request_carries_revision_witness :
  fetch sampleClient = true
  /\ exists req,
       requests (exec (fetchToggles (Responded notModified)) syncedClient)
       = requests syncedClient ++ [req]
       /\ obj_get "If-None-Match" (req_headers req) = Some (JString "v1").
Proof.
  split; [reflexivity|].
  apply (next_request_carries_revision sampleClient
           (okResponse (Some "v1") [flagA; flagB]) (Responded notModified)
           eq_refl eq_refl eq_refl).
Defined.

(** ** The session id and the cache across instances *)

Lemma storeKey_is_not_sessionId : storeKey <> "sessionId".
Proof. discriminate. Qed.

(** The initialization on a storage port that serves its calls: the
    session id it resolves, what it leaves in the context and under the
    session key, and that the port still serves. *)
Lemma ready_served_session (random : Z) (c : UnleashClient) :
  serves (storage c) ->
  let c' := (ready random c).2 in
  let held := obj_read "sessionId" (context c) in
  let stored := stored_value (cells (storage c) !! "sessionId") in
  context c'
    = spread (JObject (context c))
        [("sessionId",
          if truthy held then held
          else if truthy stored then stored else JNumber random)]
  /\ cells (storage c') !! "sessionId"
     = (if truthy held || truthy stored then cells (storage c) !! "sessionId"
        else Some (StoredValue (JNumber random)))
  /\ serves (storage c').
Proof.
  intros Hs. unfold serves in *.
  unfold ready, init, resolveSessionId. unfold_actions; cbn.
  destruct (faults (storage c)) as [|f1 [|f2 [|f3 [|f4 fs]]]] eqn:Hf;
    repeat match goal with
      | H : Forall _ (_ :: _) |- _ => apply Forall_cons in H as [? H]; subst
      end; cbn;
    destruct (truthy (obj_read "sessionId" (context c))); cbn; rewrite ?Hf; cbn;
    try (destruct (truthy (stored_value (cells (storage c) !! "sessionId")));
         cbn; rewrite ?Hf; cbn);
    rewrite ?(lookup_insert_ne _ _ _ _ sessionId_is_not_storeKey).
  all: destruct (bootstrap c) as [b|]; cbn;
    [destruct (bootstrapOverride c || bool_decide (length _ = 0%nat)); cbn;
     rewrite ?Hf; cbn|].
  all: rewrite ?(lookup_insert_ne _ _ _ _ storeKey_is_not_sessionId),
         ?lookup_insert_eq.
  all: repeat split; try done;
    repeat (apply Forall_cons_2; [done|]); first [apply Forall_nil_2 | done].
Qed.

(** X14. The session id of a client, on a storage port that serves the
    calls. A context that has a [sessionId] field keeps what it holds
    there. Otherwise the id is the one stored under the session key if
    that is a usable one, else a freshly drawn number, which is then
    saved under the session key. *)
Theorem session_id_resolution (random : Z) (c : UnleashClient) :
  serves (storage c) ->
  let c' := exec (ready random) c in
  let stored := stored_value (cells (storage c) !! "sessionId") in
  (forall held,
     NoDup (context c).*1 -> obj_get "sessionId" (context c) = Some held ->
     obj_get "sessionId" (context c') = Some held)
  /\ (obj_get "sessionId" (context c) = None ->
      obj_get "sessionId" (context c')
      = Some (if truthy stored then stored else JNumber random)
      /\ (truthy stored = false ->
          cells (storage c') !! "sessionId" = Some (StoredValue (JNumber random))))
  /\ (forall k, k <> "sessionId" -> NoDup (context c).*1 ->
                obj_get k (context c') = obj_get k (context c)).
Proof.
  intros Hs. cbn.
  destruct (ready_served_session random c Hs) as (Hctx & Hcell & _).
  cbv zeta in Hctx, Hcell. unfold exec. rewrite Hctx. split; [|split].
  - intros held Hnd Hheld. by apply spread_object_present.
  - intros Hnone. rewrite spread_object_absent by done.
    unfold obj_read in *. rewrite Hnone in *. cbn in *.
    rewrite decide_True by done. split; [done|].
    intros Hfalse. by rewrite Hcell, Hfalse.
  - intros k Hk Hnd.
    destruct (obj_get k (context c)) as [w|] eqn:Hget.
    + by apply spread_object_present.
    + rewrite spread_object_absent by done. cbn. by rewrite decide_False.
Qed.

Lemma session_id_resolution_witness :
  serves (storage freshClient)
  /\ obj_get "sessionId" (context freshClient) = None
  /\ obj_get "sessionId" (context (exec (ready 424242) freshClient))
     = Some (JNumber 424242).
Proof.
  assert (Hs : serves (storage freshClient)) by apply Forall_nil_2.
  split; [exact Hs|]. split; [reflexivity|].
  rewrite (proj1 (proj1 (proj2 (session_id_resolution 424242 freshClient Hs))
                    eq_refl)).
  reflexivity.
Defined.

(** X15. The session id survives across instances: when a client without
    a session id of its own draws one (a number other than 0) on a storage
    that holds none, a later client on the storage the first one left,
    itself without a session id in its context, takes that same id,
    whatever number it would have drawn. *)
Theorem session_id_is_shared_through_storage
    (random random' : Z) (c d : UnleashClient) :
  serves (storage c) -> random <> 0 ->
  cells (storage c) !! "sessionId" = None ->
  obj_get "sessionId" (context c) = None ->
  obj_get "sessionId" (context d) = None ->
  storage d = storage (exec (ready random) c) ->
  obj_get "sessionId" (context (exec (ready random) c)) = Some (JNumber random)
  /\ obj_get "sessionId" (context (exec (ready random') d)) = Some (JNumber random).
Proof.
  intros Hs Hr Hcell Hc Hd Hst.
  destruct (ready_served_session random c Hs) as (Hctx & Hsaved & Hs').
  cbv zeta in Hctx, Hsaved. unfold exec in *.
  unfold obj_read in Hsaved. rewrite Hc, Hcell in Hsaved. cbn in Hsaved.
  rewrite <- Hst in Hs', Hsaved.
  destruct (ready_served_session random' d Hs') as (Hctx' & _ & _).
  cbv zeta in Hctx'.
  rewrite Hctx, Hctx'. rewrite !spread_object_absent by done.
  unfold obj_read. rewrite Hc, Hd, Hcell, Hsaved. cbn.
  rewrite (bool_decide_eq_false_2 _ Hr). cbn.
  by rewrite !decide_True.
Qed.

Lemma session_id_is_shared_through_storage_witness :
  serves (storage freshClient)
  /\ obj_get "sessionId"
       (context
          (exec (ready 9)
             (set_storage (storage (exec (ready 5) freshClient)) freshClient)))
     = Some (JNumber 5).
Proof.
  assert (Hs : serves (storage freshClient)) by apply Forall_nil_2.
  split; [exact Hs|].
  apply (proj2 (session_id_is_shared_through_storage 5 9 freshClient
                  (set_storage (storage (exec (ready 5) freshClient)) freshClient)
                  Hs ltac:(discriminate) eq_refl eq_refl eq_refl eq_refl)).
Defined.

(** X16. The cache survives across instances: when a synchronization has
    received a toggle list and the storage has served the save, a later
    client on the storage the first one left that has no bootstrap (or a
    bootstrap without override, for a list that is not empty) starts with
    that list as its snapshot. *)
Theorem cache_is_shared_through_storage
    (c d : UnleashClient) (r : Response) (T : list IToggle) (random : Z) :
  fetch c = true -> fresh (Responded r) = Some r -> body r = BodyToggles T ->
  serves (storage c) ->
  storage d = storage (exec (fetchToggles (Responded r)) c) ->
  bootstrap d = None \/ (bootstrapOverride d = false /\ T <> []) ->
  toggles (exec (ready random) d) = Toggles T.
Proof.
  intros Hf Hfresh Hbody Hs Hst Hboot.
  assert (Hstored : cells (storage d) !! storeKey = Some (StoredToggles T)
                    /\ serves (storage d)).
  { rewrite Hst. revert Hfresh. unfold fresh, serves in *.
    destruct (ok r && negb (bool_decide (status r = 304))) eqn:Hok; [|done].
    intros _. unfold_actions; cbn. rewrite Hf; cbn. rewrite Hok, Hbody; cbn.
    destruct (faults (storage c)) as [|f fs] eqn:Hfaults; cbn.
    - destruct (bootstrap c), (readyEventEmitted c); cbn;
        by rewrite lookup_insert_eq.
    - apply Forall_cons in Hs as [-> Hs]. cbn.
      destruct (bootstrap c), (readyEventEmitted c); cbn;
        by rewrite lookup_insert_eq. }
  destruct Hstored as [Hcell Hs'].
  pose proof (ready_served random d Hs') as Hready. cbn in Hready.
  rewrite Hcell in Hready. cbn in Hready. unfold exec.
  destruct Hboot as [Hnone | [Hov Hne]].
  - rewrite Hnone in Hready. by destruct Hready.
  - destruct (bootstrap d) as [b|]; [|by destruct Hready].
    rewrite Hov in Hready. cbn in Hready.
    destruct T as [|t T]; [done|]. cbn in Hready. by destruct Hready.
Qed.

Lemma cache_is_shared_through_storage_witness :
  serves (storage sampleClient)
  /\ toggles
       (exec (ready 9)
          (set_storage
             (storage (exec (fetchToggles (Responded (okResponse (Some "v1") [flagA])))
                         sampleClient))
             freshClient))
     = Toggles [flagA].
Proof.
  assert (Hs : serves (storage sampleClient)) by apply Forall_nil_2.
  split; [exact Hs|].
  apply (cache_is_shared_through_storage sampleClient
           (set_storage
              (storage (exec (fetchToggles (Responded (okResponse (Some "v1") [flagA])))
                          sampleClient))
              freshClient)
           (okResponse (Some "v1") [flagA]) [flagA] 9
           eq_refl eq_refl eq_refl Hs eq_refl (or_introl eq_refl)).
Defined.

(** ** The initialization *)



(** ** Construction *)

(** X18. Construction fails only on the configuration: the constructor
    throws exactly when the URL (none given, or the empty string), the
    client key or the application name is missing, with the message of the
    first one missing in that order, or when, none of them missing, the URL
    is a string that [new URL] refuses, with the [TypeError] of that; the
    client it makes otherwise has the URL given, or the one parsed from the
    string. Whatever the storage does during the initialization does not
    make the construction fail. *)
Theorem construction_fails_only_on_configuration (cfg : IConfig) (random : Z) :
  ((exists c, new_UnleashClient cfg random = Normal c) <->
     url_missing (cfg_url cfg) = false /\ cfg_clientKey cfg <> EmptyString
     /\ cfg_appName cfg <> EmptyString /\ is_Some (resolve_url (cfg_url cfg)))
  /\ (url_missing (cfg_url cfg) = true ->
      new_UnleashClient cfg random = Throw (Error "url is required"))
  /\ (url_missing (cfg_url cfg) = false -> cfg_clientKey cfg = EmptyString ->
      new_UnleashClient cfg random = Throw (Error "clientKey is required"))
  /\ (url_missing (cfg_url cfg) = false -> cfg_clientKey cfg <> EmptyString ->
      cfg_appName cfg = EmptyString ->
      new_UnleashClient cfg random = Throw (Error "appName is required."))
  /\ (url_missing (cfg_url cfg) = false -> cfg_clientKey cfg <> EmptyString ->
      cfg_appName cfg <> EmptyString -> resolve_url (cfg_url cfg) = None ->
      exists message, new_UnleashClient cfg random = Throw (TypeError message))
  /\ (forall c,
        new_UnleashClient cfg random = Normal c ->
        resolve_url (cfg_url cfg) = Some (url c)).
Proof.
  assert (Hurl : forall c0, url (exec (ready random) c0) = url c0).
  { intros c0. unfold ready, init, resolveSessionId. crunch_action. }
  unfold new_UnleashClient, constructor.
  destruct (url_missing (cfg_url cfg)); cbn.
  { split; [split; [by intros [? ?] | by intros (? & _)]|]. repeat split; done. }
  destruct (decide (cfg_clientKey cfg = EmptyString)) as [Hk|Hk];
    [rewrite (bool_decide_eq_true_2 _ Hk)
    |rewrite (bool_decide_eq_false_2 _ Hk);
     destruct (decide (cfg_appName cfg = EmptyString)) as [Ha|Ha];
     [rewrite (bool_decide_eq_true_2 _ Ha)
     |rewrite (bool_decide_eq_false_2 _ Ha);
      destruct (resolve_url (cfg_url cfg)) as [u|]]]; cbn.
  - split; [split; [by intros [? ?] | by intros (_ & ? & _)]|]. repeat split; done.
  - split; [split; [by intros [? ?] | by intros (_ & _ & ? & _)]|].
    repeat split; done.
  - split; [split; [intros _; repeat split; first [done | by eexists]
                   | by eexists]|].
    repeat split; try done.
    intros c [= <-]. by rewrite Hurl.
  - split; [split; [by intros [? ?] | by intros (_ & _ & _ & [? ?])]|].
    repeat split; try done. intros _ _ _ _. by eexists.
Qed.

Lemma construction_fails_only_on_configuration_witness :
  (exists c,
     new_UnleashClient (bootstrapConfig failingStorage None None) 7 = Normal c)
  /\ url_missing (Some (url_string EmptyString (Some proxyUrl))) = true
  /\ resolve_url (Some (url_string "proxy" None)) = None.
Proof.
  split; [|split; reflexivity].
  apply (proj1 (construction_fails_only_on_configuration
                  (bootstrapConfig failingStorage None None) 7)).
  split; [reflexivity|]. split; [discriminate|]. split; [discriminate|].
  by eexists.
Defined.

Lemma ready_context (random : Z) (c : UnleashClient) :
  context (ready random c).2 = context c
  \/ exists sid,
       context (ready random c).2 = spread (JObject (context c)) [("sessionId", sid)].
Proof.
  unfold ready, init, resolveSessionId, spread. unfold_actions; cbn.
  repeat (case_match; cbn in *; simplify_eq); eauto.
Qed.

(** X19. The static fields at construction: unless the initial context of
    the configuration names them itself, the context of the new client
    holds the configured application name under [appName] and the
    configured environment, or ["default"] if none is given, under
    [environment], whether or not the initialization met a storage
    failure. *)
Theorem static_fields_at_construction
    (cfg : IConfig) (random : Z) (c : UnleashClient) (p : JSObject) :
  new_UnleashClient cfg random = Normal c ->
  cfg_context cfg = JUndefined \/ cfg_context cfg = JObject p ->
  obj_get "appName" p = None -> obj_get "environment" p = None ->
  obj_get "appName" (context c) = Some (JString (cfg_appName cfg))
  /\ obj_get "environment" (context c)
     = Some (JString (default "default" (cfg_environment cfg))).
Proof.
  unfold new_UnleashClient.
  destruct (constructor cfg) as [c0|e] eqn:Hc; [|done].
  intros [= <-] Hctx Ha He.
  assert (Hc0 : context c0
                = spread (cfg_context cfg)
                    [("appName", JString (cfg_appName cfg));
                     ("environment",
                      JString (default "default" (cfg_environment cfg)))]).
  { revert Hc. unfold constructor. repeat case_match; intros [= <-]; done. }
  assert (Hnd : NoDup (context c0).*1).
  { rewrite Hc0. apply spread_NoDup. apply (bool_decide_unpack _).
    vm_compute. exact I. }
  assert (H0 : obj_get "appName" (context c0) = Some (JString (cfg_appName cfg))
               /\ obj_get "environment" (context c0)
                  = Some (JString (default "default" (cfg_environment cfg)))).
  { rewrite Hc0. destruct Hctx as [-> | ->].
    - split; reflexivity.
    - rewrite !spread_object_absent by done. split; reflexivity. }
  destruct H0 as [Happ Henv]. unfold exec.
  destruct (ready_context random c0) as [-> | [sid ->]]; [done|].
  split; by apply spread_object_present.
Qed.

Lemma static_fields_at_construction_witness :
  new_UnleashClient sampleConfig 424242 = Normal sampleClient
  /\ obj_get "appName" (context sampleClient) = Some (JString "web")
  /\ obj_get "environment" (context sampleClient) = Some (JString "production").
Proof.
  split; [reflexivity|].
  apply (static_fields_at_construction sampleConfig 424242 sampleClient
           [("userId", JString "123");
            ("properties", JObject [("plan", JString "pro")])]
           eq_refl (or_intror eq_refl) eq_refl eq_refl).
Defined.

(** ** The copy of the context *)

Lemma obj_set_fresh {A : Type} (k : string) (v : A) (o : list (string * A)) :
  k ∉ o.*1 -> obj_set k v o = o ++ [(k, v)].
Proof.
  induction o as [|[k' v'] o IH]; cbn; intros Hk; [done|].
  apply not_elem_of_cons in Hk as [Hne Hk].
  rewrite decide_False by done. by rewrite IH.
Qed.

Lemma fold_set_fresh {A : Type} (l o : list (string * A)) :
  NoDup (o ++ l).*1 ->
  fold_left (fun t e => obj_set e.1 e.2 t) l o = o ++ l.
Proof.
  revert o. induction l as [|[k v] l IH]; intros o Hnd; cbn.
  - by rewrite app_nil_r.
  - rewrite fmap_app in Hnd. cbn in Hnd.
    apply NoDup_app in Hnd as (Ho & Hdisj & Hl).
    rewrite obj_set_fresh by (intros Hin; apply (Hdisj k Hin); left).
    rewrite IH.
    + by rewrite <- app_assoc.
    + rewrite <- app_assoc. cbn. rewrite fmap_app. cbn.
      apply NoDup_app. done.
Qed.

(** X20. [getContext()] returns a copy that holds what the context holds:
    for a context with distinct keys (which the context of a client always
    has), the copy has the entries of the context, in the order in which
    JavaScript enumerates them, and every key reads the same in both. *)
Theorem getContext_copies_the_context (c : UnleashClient) :
  NoDup (context c).*1 ->
  getContext c = Object_entries (JObject (context c))
  /\ getContext c ≡ₚ context c
  /\ forall k, obj_get k (getContext c) = obj_get k (context c).
Proof.
  intros Hnd. unfold getContext.
  assert (Hcopy : spread (JObject (context c)) [] = own_entries (context c)).
  { unfold spread. cbn. apply (fold_set_fresh _ []). cbn.
    by rewrite own_entries_perm. }
  split; [exact Hcopy|]. split; [rewrite Hcopy; apply own_entries_perm|].
  intros k. destruct (obj_get k (context c)) as [v|] eqn:Hget.
  - by apply spread_object_present.
  - by rewrite spread_object_absent.
Qed.

Lemma getContext_copies_the_context_witness :
  NoDup (context sampleClient).*1 /\ getContext sampleClient = context sampleClient.
Proof.
  assert (Hnd : NoDup (context sampleClient).*1).
  { apply (bool_decide_unpack _). vm_compute. exact I. }
  split; [exact Hnd|].
  rewrite (proj1 (getContext_copies_the_context sampleClient Hnd)).
  reflexivity.
Defined.

(** ** Resolution of the transport *)


